(** * PaintIt: stroke capture and undo/redo history of [src/App.tsx]

    A shallow embedding of the state and the event handlers of the [App]
    component, and the properties of its capture controller and history
    engine, of its keyboard shortcuts and of the props it paints the
    strokes with.

    Modelling conventions.
    - The component state is the record [App]: one field per [useState] /
      [useRef] cell that a handler of the drawing core reads or writes
      ([tool], [lines], [history], [historyStep], [color], [penSize],
      [eraserSize], [isDrawing]).  [showToolbox], [mobileToolboxOpen] and
      [stageRef] only drive the toolbar and the export and are left out.
    - Events are delivered one at a time and the component re-renders between
      two events, so the values a handler closes over ([lines],
      [historyStep], [history], ...) are the current ones and a functional
      updater [(prev) => ...] receives the same value.
    - JavaScript numbers that are counters or pixel coordinates are [Z]; the
      handlers never do arithmetic on coordinates, they only store them.
    - Arrays are lists; indexing and [slice] follow JavaScript out of range
      ([Js.get] gives [None] for [undefined], [Js.slice0] counts a negative
      end from the back). *)

From Stdlib Require Import ZArith QArith List Ascii String Bool Lia.
Import ListNotations.
Open Scope Z_scope.

(** ** JavaScript array operations used by the handlers *)

Module Js.

(** [a.length] *)
Definition len {A : Type} (a : list A) : Z := Z.of_nat (List.length a).

(** [a[i]]; [None] stands for [undefined]. *)
Definition get {A : Type} (a : list A) (i : Z) : option A :=
  if i <? 0 then None else nth_error a (Z.to_nat i).

(** [a.slice(0, e)]: a negative [e] is taken relative to the end, and the
    end is clamped to [0 .. a.length]. *)
Definition slice0 {A : Type} (a : list A) (e : Z) : list A :=
  let k := if e <? 0 then Z.max (len a + e) 0 else Z.min e (len a) in
  firstn (Z.to_nat k) a.

(** [v || d] for an array-valued [v]: every array (the empty one too) is
    truthy, only [undefined] falls through to [d]. *)
Definition or_else {A : Type} (v : option A) (d : A) : A :=
  match v with Some x => x | None => d end.

End Js.

(** ** Data model *)

(** [type Tool = 'pen' | 'eraser'] *)
Inductive Tool : Type := pen | eraser.

(** [interface DrawingLine] *)
Module DrawingLine.
Record t : Type := mk
  { color : string;
    points : list Z;
    size : Z;
    tool : Tool }.
End DrawingLine.
Abbreviation DrawingLine := DrawingLine.t.

(** What [stage.getPointerPosition()] returns when it is not [null]. *)
Module Vector2d.
Record t : Type := mk { x : Z; y : Z }.
End Vector2d.
Abbreviation Vector2d := Vector2d.t.

Definition PREDEFINED_COLORS : list string :=
  ["#df4b26"; "#000000"; "#ffffff"; "#1e90ff";
   "#32cd32"; "#ff69b4"; "#ffa500"; "#8a2be2"]%string.

Definition SIZE_OPTIONS : list Z := [2; 4; 6; 8; 12; 16; 20; 24].

(** The state cells of [App]. *)
Record App : Type := mkApp
  { tool : Tool;
    lines : list DrawingLine;
    history : list (list DrawingLine);
    historyStep : Z;
    color : string;
    penSize : Z;
    eraserSize : Z;
    isDrawing : bool }.

(** The initial values handed to [useState] / [useRef]. *)
Definition initial : App :=
  {| tool := pen;
     lines := [];
     history := [[]];
     historyStep := 0;
     color := nth 0 PREDEFINED_COLORS EmptyString;
     penSize := 6;
     eraserSize := 12;
     isDrawing := false |}.

(** State setters. *)
Definition setTool (s : App) (v : Tool) : App :=
  mkApp v (lines s) (history s) (historyStep s) (color s)
        (penSize s) (eraserSize s) (isDrawing s).

Definition setLines (s : App) (v : list DrawingLine) : App :=
  mkApp (tool s) v (history s) (historyStep s) (color s)
        (penSize s) (eraserSize s) (isDrawing s).

Definition setHistory (s : App) (v : list (list DrawingLine)) : App :=
  mkApp (tool s) (lines s) v (historyStep s) (color s)
        (penSize s) (eraserSize s) (isDrawing s).

Definition setHistoryStep (s : App) (v : Z) : App :=
  mkApp (tool s) (lines s) (history s) v (color s)
        (penSize s) (eraserSize s) (isDrawing s).

Definition setColor (s : App) (v : string) : App :=
  mkApp (tool s) (lines s) (history s) (historyStep s) v
        (penSize s) (eraserSize s) (isDrawing s).

Definition setPenSize (s : App) (v : Z) : App :=
  mkApp (tool s) (lines s) (history s) (historyStep s) (color s)
        v (eraserSize s) (isDrawing s).

Definition setEraserSize (s : App) (v : Z) : App :=
  mkApp (tool s) (lines s) (history s) (historyStep s) (color s)
        (penSize s) v (isDrawing s).

Definition setIsDrawing (s : App) (v : bool) : App :=
  mkApp (tool s) (lines s) (history s) (historyStep s) (color s)
        (penSize s) (eraserSize s) v.

(** [const currentSize = tool === 'pen' ? penSize : eraserSize] *)
Definition currentSize (s : App) : Z :=
  match tool s with pen => penSize s | eraser => eraserSize s end.

(** [const setCurrentSize = tool === 'pen' ? setPenSize : setEraserSize] *)
Definition setCurrentSize (s : App) (v : Z) : App :=
  match tool s with pen => setPenSize s v | eraser => setEraserSize s v end.

(** ** Handlers *)

(** What delivering an event ends in.
    - [Done s]: the handler ran to its end and the component re-rendered
      with the state [s].
    - [Thrown s]: the handler itself raised; the component stays mounted,
      with the state [s] the handler had written before it raised.
    - [Unmounted s]: the handler returned, but the updater it handed to
      [setLines] raises when React runs it in the next render; with no error
      boundary the component is unmounted.  [s] is the last state it
      displayed. *)
Inductive outcome : Type :=
| Done (s : App)
| Thrown (s : App)
| Unmounted (s : App).

Definition state_of (o : outcome) : App :=
  match o with Done s => s | Thrown s => s | Unmounted s => s end.

(** The pointer position the handler reads from the event,
    [event.target.getStage().getPointerPosition()], which is [null] ([None])
    when the stage has no registered pointer. *)
Definition Pointer : Type := option Vector2d.

(** [handleUndo] *)
Definition handleUndo (s : App) : App :=
  if historyStep s >? 0 then
    setLines (setHistoryStep s (historyStep s - 1))
             (Js.or_else (Js.get (history s) (historyStep s - 1)) [])
  else s.

(** [handleRedo].  [history[historyStep + 1]] is passed to [setLines] as it
    is; under the guard it can only be [undefined] when [historyStep < -1],
    and [lines] then holds no array: the model stores [[]] there. *)
Definition handleRedo (s : App) : App :=
  if historyStep s <? Js.len (history s) - 1 then
    setLines (setHistoryStep s (historyStep s + 1))
             (Js.or_else (Js.get (history s) (historyStep s + 1)) [])
  else s.

(** [handleMouseDown]: [pos.x] raises on a [null] position, after
    [isDrawing.current] was set. *)
Definition handleMouseDown (s : App) (ev : Pointer) : outcome :=
  let s1 := setIsDrawing s true in
  match ev with
  | None => Thrown s1
  | Some pos =>
      let newLine :=
        DrawingLine.mk (color s) [Vector2d.x pos; Vector2d.y pos]
                       (currentSize s) (tool s) in
      Done (setLines s1 (lines s ++ [newLine]))
  end.

(** The updater [handleMouseMove] hands to [setLines]; [None] when it raises
    (reading [point.x] of a [null] position). *)
Definition moveUpdater (point : Pointer) (prevLines : list DrawingLine)
  : option (list DrawingLine) :=
  if Js.len prevLines =? 0 then Some prevLines
  else
    match Js.get prevLines (Js.len prevLines - 1), point with
    | Some lastLine, Some p =>
        let updatedLine :=
          DrawingLine.mk
            (DrawingLine.color lastLine)
            (DrawingLine.points lastLine ++ [Vector2d.x p; Vector2d.y p])
            (DrawingLine.size lastLine)
            (DrawingLine.tool lastLine) in
        Some (Js.slice0 prevLines (-1) ++ [updatedLine])
    | _, _ => None
    end.

(** [handleMouseMove].  The handler reads nothing of the position itself:
    it returns after [setLines(updater)], and the updater runs in React's
    render, so a raising updater unmounts the component instead of raising
    in the handler. *)
Definition handleMouseMove (s : App) (ev : Pointer) : outcome :=
  if negb (isDrawing s) then Done s
  else
    match moveUpdater ev (lines s) with
    | Some l => Done (setLines s l)
    | None => Unmounted s
    end.

(** [handleMouseUp] (the [setTimeout] only touches [showToolbox]). *)
Definition handleMouseUp (s : App) : App :=
  let s1 := setIsDrawing s false in
  let s2 :=
    setHistory s1 (Js.slice0 (history s1) (historyStep s + 1) ++ [lines s]) in
  setHistoryStep s2 (historyStep s2 + 1).

(** [handleClearCanvas] *)
Definition handleClearCanvas (s : App) : App :=
  let s1 := setLines s [] in
  let s2 :=
    setHistory s1 (Js.slice0 (history s1) (historyStep s + 1) ++ [[]]) in
  setHistoryStep s2 (historyStep s2 + 1).

(** [handleToolClick] *)
Definition handleToolClick (s : App) (selectedTool : Tool) : App :=
  setTool s selectedTool.

(** The [disabled] attributes of the undo and redo buttons, negated. *)
Definition canUndo (s : App) : bool := negb (historyStep s <=? 0).
Definition canRedo (s : App) : bool :=
  negb (historyStep s >=? Js.len (history s) - 1).

(** ** Events and runs *)

(** What the stage, the toolbar and the keyboard deliver to the handlers. *)
Inductive Event : Type :=
| MouseDown (p : Pointer)
| MouseMove (p : Pointer)
| MouseUp
| Undo
| Redo
| ClearCanvas
| ToolClick (t : Tool)
| PickColor (c : string)
| PickSize (v : Z).

Definition dispatch (s : App) (e : Event) : outcome :=
  match e with
  | MouseDown p => handleMouseDown s p
  | MouseMove p => handleMouseMove s p
  | MouseUp => Done (handleMouseUp s)
  | Undo => Done (handleUndo s)
  | Redo => Done (handleRedo s)
  | ClearCanvas => Done (handleClearCanvas s)
  | ToolClick t => Done (handleToolClick s t)
  | PickColor c => Done (setColor s c)
  | PickSize v => Done (setCurrentSize s v)
  end.

(** A run delivers the events in order as long as every handler runs to its
    end: it is [Done] exactly for the traces on which nothing raises, and
    reports the first event that does.  What happens after a raising
    handler is [deliver] below. *)
Fixpoint run (s : App) (es : list Event) : outcome :=
  match es with
  | [] => Done s
  | e :: es' =>
      match dispatch s e with
      | Done s' => run s' es'
      | Thrown s' => Thrown s'
      | Unmounted s' => Unmounted s'
      end
  end.

(** The state of the component after the events [es], whatever they do: a
    handler that raises leaves the component mounted and the later events
    are handled from the state it left; once the component is unmounted no
    event reaches it and its last state stays. *)
Fixpoint deliver (s : App) (es : list Event) : App :=
  match es with
  | [] => s
  | e :: es' =>
      match dispatch s e with
      | Done s' => deliver s' es'
      | Thrown s' => deliver s' es'
      | Unmounted s' => s'
      end
  end.

(** The states the component can be in.  The state a raising handler left
    behind is one of them: the component stays mounted and goes on from
    there.  For [Unmounted s] the state is [s] itself, the last one
    displayed. *)
Inductive reachable : App -> Prop :=
| reach_initial : reachable initial
| reach_dispatch (s : App) (e : Event) :
    reachable s -> reachable (state_of (dispatch s e)).

(** ** Invariants *)

(** [0 <= cursor < snapshots.length] *)
Definition history_inv (s : App) : Prop :=
  0 <= historyStep s < Js.len (history s).

(** The strokes on display are the snapshot under the cursor. *)
Definition synced (s : App) : Prop :=
  Js.get (history s) (historyStep s) = Some (lines s).

(** The flat coordinate list of a sequence of positions. *)
Definition flat (ps : list Vector2d) : list Z :=
  flat_map (fun p => [Vector2d.x p; Vector2d.y p]) ps.

(** The events of one gesture: pointer down at [p0], moves through [ps],
    pointer up. *)
Definition gesture (p0 : Vector2d) (ps : list Vector2d) : list Event :=
  MouseDown (Some p0) :: map (fun p => MouseMove (Some p)) ps ++ [MouseUp].

(** [s'] is [s] after its history committed the canvas state [snap]: the
    snapshots at indices [0 .. historyStep s] are kept, [snap] follows them
    as the last entry, and the cursor is on it. *)
Definition committed (s : App) (snap : list DrawingLine) (s' : App) : Prop :=
  history s' = firstn (Z.to_nat (historyStep s + 1)) (history s) ++ [snap]
  /\ (forall i, 0 <= i <= historyStep s ->
        Js.get (history s') i = Js.get (history s) i)
  /\ Js.get (history s') (historyStep s + 1) = Some snap
  /\ Js.len (history s') = historyStep s + 2
  /\ historyStep s' = Js.len (history s') - 1.

(** The stroke [l] with the position [p] appended to its points. *)
Definition extended (l : DrawingLine) (p : Vector2d) : DrawingLine :=
  DrawingLine.mk (DrawingLine.color l)
                 (DrawingLine.points l ++ [Vector2d.x p; Vector2d.y p])
                 (DrawingLine.size l) (DrawingLine.tool l).

(** The stroke a pointer-down at [p] creates in state [s]. *)
Definition opened (s : App) (p : Vector2d) : DrawingLine :=
  DrawingLine.mk (color s) [Vector2d.x p; Vector2d.y p]
                 (currentSize s) (tool s).

(** The stroke one gesture draws in state [s]: the style selected at the
    pointer-down, and the positions of the pointer-down and of the moves. *)
Definition drawn (s : App) (p0 : Vector2d) (ps : list Vector2d)
  : DrawingLine :=
  DrawingLine.mk (color s) (flat (p0 :: ps)) (currentSize s) (tool s).

(** Sample data: two strokes, and the state after drawing both and undoing
    the second one. *)
Definition strokeA : DrawingLine :=
  DrawingLine.mk "#df4b26" [10; 10; 20; 20; 30; 10] 6 pen.

Definition strokeB : DrawingLine :=
  DrawingLine.mk "#000000" [5; 5; 6; 7] 12 eraser.

Definition two_strokes : App :=
  mkApp eraser [strokeA; strokeB]
        [[]; [strokeA]; [strokeA; strokeB]] 2 "#000000" 6 12 false.

Definition second_undone : App :=
  mkApp eraser [strokeA]
        [[]; [strokeA]; [strokeA; strokeB]] 1 "#000000" 6 12 false.

(** The state after a pointer-down at (7,7) over the two strokes: a third
    stroke is on display, not yet committed. *)
Definition strokeC : DrawingLine :=
  DrawingLine.mk "#000000" [7; 7] 12 eraser.

Definition mid_gesture : App :=
  mkApp eraser [strokeA; strokeB; strokeC]
        [[]; [strokeA]; [strokeA; strokeB]] 2 "#000000" 6 12 true.

(** ** Keyboard shortcuts *)

(** The fields of the [KeyboardEvent] that [handleKeyDown] reads. *)
Module KeyboardEvent.
Record t : Type := mk
  { metaKey : bool;
    ctrlKey : bool;
    shiftKey : bool;
    key : string }.
End KeyboardEvent.
Abbreviation KeyboardEvent := KeyboardEvent.t.

(** [toLowerCase] on one character of the key value: the capitals [A-Z] go
    to [a-z].  The key value is held as its bytes; characters outside ASCII
    are left as they are, none of them has one of the letters of the
    [switch] as its lower case. *)
Definition lowerChar (c : ascii) : ascii :=
  let n := nat_of_ascii c in
  if ((65 <=? n) && (n <=? 90))%nat then ascii_of_nat (n + 32) else c.

(** [event.key.toLowerCase()] *)
Fixpoint toLowerCase (k : string) : string :=
  match k with
  | EmptyString => EmptyString
  | String c k' => String (lowerChar c) (toLowerCase k')
  end.

(** The handlers [handleKeyDown] calls. *)
Inductive KeyCall : Type :=
| CallExportPNG
| CallCopyToClipboard
| CallUndo
| CallRedo.

(** [handleKeyDown]: whether it called [event.preventDefault()], and the
    handler it called, if any. *)
Definition handleKeyDown (event : KeyboardEvent) : bool * option KeyCall :=
  if KeyboardEvent.metaKey event || KeyboardEvent.ctrlKey event then
    let k := toLowerCase (KeyboardEvent.key event) in
    if (k =? "s")%string then (true, Some CallExportPNG)
    else if (k =? "c")%string then (true, Some CallCopyToClipboard)
    else if (k =? "z")%string then
      if KeyboardEvent.shiftKey event then (true, Some CallRedo)
      else (true, Some CallUndo)
    else if (k =? "y")%string then (true, Some CallRedo)
    else (false, None)
  else (false, None).

(** The state after a key press.  [handleExportPNG] and
    [handleCopyToClipboard] read the stage and call no state setter. *)
Definition keyDown (s : App) (event : KeyboardEvent) : App :=
  match snd (handleKeyDown event) with
  | Some CallUndo => handleUndo s
  | Some CallRedo => handleRedo s
  | Some CallExportPNG | Some CallCopyToClipboard | None => s
  end.

(** ** Rendering *)

(** The props [getLineProps] hands to a Konva [Line]. *)
Module LineProps.
Record t : Type := mk
  { points : list Z;
    stroke : string;
    strokeWidth : Z;
    globalCompositeOperation : string;
    tension : Q;
    lineCap : string;
    lineJoin : string }.
End LineProps.
Abbreviation LineProps := LineProps.t.

(** [getLineProps] *)
Definition getLineProps (line : DrawingLine) : LineProps :=
  LineProps.mk
    (DrawingLine.points line)
    (match DrawingLine.tool line with
     | pen => DrawingLine.color line
     | eraser => "#000"%string
     end)
    (DrawingLine.size line)
    (match DrawingLine.tool line with
     | eraser => "destination-out"%string
     | pen => "source-over"%string
     end)
    (1 # 2)%Q
    "round"%string
    "round"%string.

(** The children of the [Layer]: [lines.map(...)], one [Line] per stroke. *)
Definition layer (s : App) : list LineProps :=
  map getLineProps (lines s).

(** ** Properties of strokes and of event sequences *)

(** [P] holds of every stroke on display and in every snapshot. *)
Definition all_strokes (P : DrawingLine -> Prop) (s : App) : Prop :=
  Forall P (lines s) /\ Forall (Forall P) (history s).

(** The points of a stroke are whole positions, and at least one: a
    non-empty, even number of coordinates. *)
Definition paired (l : DrawingLine) : bool :=
  (Nat.even (List.length (DrawingLine.points l))
   && (2 <=? List.length (DrawingLine.points l))%nat)%bool.

(** The width of a stroke is one of the sizes the toolbar offers. *)
Definition sized (l : DrawingLine) : Prop :=
  In (DrawingLine.size l) SIZE_OPTIONS.

(** Both stored sizes are among the sizes the toolbar offers. *)
Definition sizes_offered (s : App) : Prop :=
  In (penSize s) SIZE_OPTIONS /\ In (eraserSize s) SIZE_OPTIONS.

(** An event as the toolbar produces it: a size is picked from
    [SIZE_OPTIONS]. *)
Definition offered (e : Event) : Prop :=
  match e with
  | PickSize v => In v SIZE_OPTIONS
  | _ => True
  end.

(** Events that may come between a pointer-down and the pointer-up without
    ending the gesture or touching the history: moves with a position, and
    changes of tool, color or size. *)
Definition during_gesture (e : Event) : bool :=
  match e with
  | MouseMove (Some _) | ToolClick _ | PickColor _ | PickSize _ => true
  | _ => false
  end.

(** The positions of the moves among [es], in order. *)
Definition positions (es : list Event) : list Vector2d :=
  flat_map
    (fun e => match e with MouseMove (Some p) => [p] | _ => [] end) es.

(** Undo pressed as often as the cursor is high. *)
Definition undoAll (s : App) : App :=
  Nat.iter (Z.to_nat (historyStep s)) handleUndo s.

(** ** Facts about the array operations *)

Section JsFacts.
Context {A : Type}.
Implicit Types (a t : list A) (i e : Z) (v : A).

Lemma len_nonneg a : 0 <= Js.len a.
Proof. unfold Js.len; lia. Qed.

Lemma len_app a t : Js.len (a ++ t) = Js.len a + Js.len t.
Proof. unfold Js.len; rewrite length_app; lia. Qed.

Lemma len_zero_nil a : Js.len a = 0 -> a = [].
Proof. destruct a; [reflexivity | unfold Js.len; simpl; lia]. Qed.

Lemma get_in_range a i :
  0 <= i < Js.len a -> exists v, Js.get a i = Some v.
Proof.
  intros [Hlo Hhi]. unfold Js.get, Js.len in *.
  destruct (Z.ltb_spec i 0); [lia |].
  destruct (nth_error a (Z.to_nat i)) eqn:E; [eauto |].
  apply nth_error_None in E. lia.
Qed.

Lemma get_out_of_range a i : Js.len a <= i -> Js.get a i = None.
Proof.
  intros H. unfold Js.get, Js.len in *.
  destruct (Z.ltb_spec i 0); [reflexivity |].
  apply nth_error_None. lia.
Qed.

Lemma get_app_last a v : Js.get (a ++ [v]) (Js.len (a ++ [v]) - 1) = Some v.
Proof.
  rewrite len_app. unfold Js.get, Js.len. simpl.
  destruct (Z.ltb_spec (Z.of_nat (List.length a) + 1 - 1) 0); [lia |].
  replace (Z.to_nat (Z.of_nat (List.length a) + 1 - 1))
    with (List.length a + 0)%nat by lia.
  rewrite nth_error_app2 by lia.
  replace (List.length a + 0 - List.length a)%nat with 0%nat by lia.
  reflexivity.
Qed.

Lemma slice0_nonneg a e :
  0 <= e -> Js.slice0 a e = firstn (Z.to_nat e) a.
Proof.
  intros He. unfold Js.slice0.
  destruct (Z.ltb_spec e 0); [lia |].
  destruct (Z.le_gt_cases e (Js.len a)) as [Hle | Hgt].
  - rewrite Z.min_l by lia. reflexivity.
  - rewrite Z.min_r by lia. unfold Js.len in *.
    rewrite Nat2Z.id. rewrite firstn_all, firstn_all2 by lia. reflexivity.
Qed.

Lemma slice0_drop_last a v : Js.slice0 (a ++ [v]) (-1) = a.
Proof.
  unfold Js.slice0. simpl. rewrite len_app.
  pose proof (len_nonneg a) as Ha.
  replace (Js.len [v]) with 1 by reflexivity.
  rewrite Z.max_l by lia. unfold Js.len.
  replace (Z.to_nat (Z.of_nat (List.length a) + 1 + -1))
    with (List.length a + 0)%nat by lia.
  rewrite firstn_app_2. simpl. apply app_nil_r.
Qed.

Lemma len_slice0 a e : 0 <= e <= Js.len a -> Js.len (Js.slice0 a e) = e.
Proof.
  intros [Hlo Hhi]. rewrite slice0_nonneg by lia. unfold Js.len in *.
  rewrite length_firstn. lia.
Qed.

Lemma get_slice0_app_kept a t e i :
  0 <= i < e -> e <= Js.len a ->
  Js.get (Js.slice0 a e ++ t) i = Js.get a i.
Proof.
  intros [Hlo Hhi] He. rewrite slice0_nonneg by lia.
  unfold Js.get, Js.len in *.
  destruct (Z.ltb_spec i 0); [lia |].
  rewrite nth_error_app1 by (rewrite length_firstn; lia).
  rewrite nth_error_firstn.
  destruct (Nat.ltb_spec (Z.to_nat i) (Z.to_nat e)); [reflexivity | lia].
Qed.

Lemma get_slice0_app_new a e v :
  0 <= e <= Js.len a -> Js.get (Js.slice0 a e ++ [v]) e = Some v.
Proof.
  intros He.
  pose proof (get_app_last (Js.slice0 a e) v) as H.
  rewrite len_app, len_slice0 in H by exact He.
  replace (e + Js.len [v] - 1) with e in H by (unfold Js.len; simpl; lia).
  exact H.
Qed.

End JsFacts.

(** ** The handlers on the moving parts of the state *)

Lemma moveUpdater_last (p : Vector2d) (earlier : list DrawingLine)
      (l : DrawingLine) :
  moveUpdater (Some p) (earlier ++ [l]) = Some (earlier ++ [extended l p]).
Proof.
  unfold moveUpdater.
  destruct (Z.eqb_spec (Js.len (earlier ++ [l])) 0) as [E | _].
  - apply len_zero_nil in E. destruct earlier; discriminate.
  - rewrite get_app_last, slice0_drop_last. reflexivity.
Qed.

Lemma moveUpdater_empty (point : Pointer) : moveUpdater point [] = Some [].
Proof. reflexivity. Qed.

Lemma handleMouseUp_committed (s : App) :
  history_inv s -> committed s (lines s) (handleMouseUp s).
Proof.
  intros [Hlo Hhi]. unfold committed, handleMouseUp. simpl.
  rewrite len_app, len_slice0 by lia.
  repeat split.
  - rewrite slice0_nonneg by lia. reflexivity.
  - intros i Hi. apply get_slice0_app_kept; lia.
  - apply get_slice0_app_new. lia.
  - unfold Js.len; simpl; lia.
  - unfold Js.len; simpl; lia.
Qed.

Lemma handleClearCanvas_committed (s : App) :
  history_inv s -> committed s [] (handleClearCanvas s).
Proof.
  intros [Hlo Hhi]. unfold committed, handleClearCanvas. simpl.
  rewrite len_app, len_slice0 by lia.
  repeat split.
  - rewrite slice0_nonneg by lia. reflexivity.
  - intros i Hi. apply get_slice0_app_kept; lia.
  - apply get_slice0_app_new. lia.
  - unfold Js.len; simpl; lia.
  - unfold Js.len; simpl; lia.
Qed.

Lemma committed_inv (s s' : App) (snap : list DrawingLine) :
  history_inv s -> committed s snap s' -> history_inv s'.
Proof.
  intros [Hlo Hhi] (_ & _ & _ & Hlen & Hcur). unfold history_inv. lia.
Qed.

Lemma committed_no_redo (s s' : App) (snap : list DrawingLine) :
  committed s snap s' -> canRedo s' = false.
Proof.
  intros (_ & _ & _ & _ & Hcur). unfold canRedo. rewrite Hcur.
  destruct (Z.geb_spec (Js.len (history s') - 1) (Js.len (history s') - 1));
    [reflexivity | lia].
Qed.

Lemma handleUndo_step (s : App) :
  history_inv s -> 0 < historyStep s ->
  exists snap,
    Js.get (history s) (historyStep s - 1) = Some snap
    /\ handleUndo s = setLines (setHistoryStep s (historyStep s - 1)) snap.
Proof.
  intros [Hlo Hhi] Hpos.
  destruct (get_in_range (history s) (historyStep s - 1)) as [snap Hsnap];
    [lia |].
  exists snap. split; [exact Hsnap |].
  unfold handleUndo. rewrite Hsnap.
  destruct (Z.gtb_spec (historyStep s) 0); [reflexivity | lia].
Qed.

Lemma handleUndo_bottom (s : App) : historyStep s <= 0 -> handleUndo s = s.
Proof.
  intros H. unfold handleUndo.
  destruct (Z.gtb_spec (historyStep s) 0); [lia | reflexivity].
Qed.

Lemma handleRedo_step (s : App) :
  history_inv s -> historyStep s < Js.len (history s) - 1 ->
  exists snap,
    Js.get (history s) (historyStep s + 1) = Some snap
    /\ handleRedo s = setLines (setHistoryStep s (historyStep s + 1)) snap.
Proof.
  intros [Hlo Hhi] Hlt.
  destruct (get_in_range (history s) (historyStep s + 1)) as [snap Hsnap];
    [lia |].
  exists snap. split; [exact Hsnap |].
  unfold handleRedo. rewrite Hsnap.
  destruct (Z.ltb_spec (historyStep s) (Js.len (history s) - 1));
    [reflexivity | lia].
Qed.

Lemma handleRedo_top (s : App) :
  Js.len (history s) - 1 <= historyStep s -> handleRedo s = s.
Proof.
  intros H. unfold handleRedo.
  destruct (Z.ltb_spec (historyStep s) (Js.len (history s) - 1));
    [lia | reflexivity].
Qed.

(** ** Preservation of the invariants *)

Lemma history_inv_initial : history_inv initial.
Proof. unfold history_inv, Js.len; simpl; lia. Qed.

Lemma history_inv_undo (s : App) : history_inv s -> history_inv (handleUndo s).
Proof.
  intros H. destruct (Z.le_gt_cases (historyStep s) 0) as [Hle | Hgt].
  - rewrite handleUndo_bottom by exact Hle. exact H.
  - destruct (handleUndo_step s H) as (snap & _ & ->); [lia |].
    unfold history_inv in *. simpl. lia.
Qed.

Lemma history_inv_redo (s : App) : history_inv s -> history_inv (handleRedo s).
Proof.
  intros H.
  destruct (Z.le_gt_cases (Js.len (history s) - 1) (historyStep s))
    as [Hle | Hgt].
  - rewrite handleRedo_top by exact Hle. exact H.
  - destruct (handleRedo_step s H) as (snap & _ & ->); [lia |].
    unfold history_inv in *. simpl. lia.
Qed.

Lemma history_inv_mouseDown (s : App) (ev : Pointer) :
  history_inv s -> history_inv (state_of (handleMouseDown s ev)).
Proof. intros H. destruct ev; exact H. Qed.

Lemma history_inv_mouseMove (s : App) (ev : Pointer) :
  history_inv s -> history_inv (state_of (handleMouseMove s ev)).
Proof.
  intros H. unfold handleMouseMove.
  destruct (isDrawing s); simpl; [| exact H].
  destruct (moveUpdater ev (lines s)); exact H.
Qed.

Lemma history_inv_dispatch (s : App) (e : Event) :
  history_inv s -> history_inv (state_of (dispatch s e)).
Proof.
  intros H. destruct e; simpl.
  - apply history_inv_mouseDown, H.
  - apply history_inv_mouseMove, H.
  - eapply committed_inv; [exact H | apply handleMouseUp_committed, H].
  - apply history_inv_undo, H.
  - apply history_inv_redo, H.
  - eapply committed_inv; [exact H | apply handleClearCanvas_committed, H].
  - exact H.
  - exact H.
  - unfold setCurrentSize. destruct (tool s); exact H.
Qed.

Lemma history_inv_reachable (s : App) : reachable s -> history_inv s.
Proof.
  induction 1 as [| s e _ IH].
  - apply history_inv_initial.
  - apply history_inv_dispatch, IH.
Qed.

(** Outside a gesture the strokes on display are the snapshot under the
    cursor. *)
Lemma idle_synced_dispatch (s : App) (e : Event) :
  history_inv s ->
  (isDrawing s = false -> synced s) ->
  isDrawing (state_of (dispatch s e)) = false ->
  synced (state_of (dispatch s e)).
Proof.
  intros Hinv Hs. destruct e; simpl.
  - destruct p; simpl; discriminate.
  - unfold handleMouseMove. destruct (isDrawing s) eqn:Hd; simpl.
    + destruct (moveUpdater p (lines s)); simpl; congruence.
    + intros _. apply Hs. reflexivity.
  - intros _. destruct (handleMouseUp_committed s Hinv) as (_ & _ & Hnew & _).
    unfold synced. exact Hnew.
  - intros Hd. destruct (Z.le_gt_cases (historyStep s) 0) as [Hle | Hgt].
    + rewrite handleUndo_bottom in * by exact Hle. apply Hs, Hd.
    + destruct (handleUndo_step s Hinv) as (snap & Hsnap & ->); [lia |].
      exact Hsnap.
  - intros Hd.
    destruct (Z.le_gt_cases (Js.len (history s) - 1) (historyStep s))
      as [Hle | Hgt].
    + rewrite handleRedo_top in * by exact Hle. apply Hs, Hd.
    + destruct (handleRedo_step s Hinv) as (snap & Hsnap & ->); [lia |].
      exact Hsnap.
  - intros _.
    destruct (handleClearCanvas_committed s Hinv) as (_ & _ & Hnew & _).
    unfold synced. exact Hnew.
  - exact Hs.
  - exact Hs.
  - unfold setCurrentSize. destruct (tool s); exact Hs.
Qed.

Lemma idle_synced_reachable (s : App) :
  reachable s -> isDrawing s = false -> synced s.
Proof.
  induction 1 as [| s e Hr IH].
  - intros _. reflexivity.
  - apply idle_synced_dispatch; [apply history_inv_reachable, Hr | exact IH].
Qed.

(** ** Gestures *)

Lemma setLines_same (s : App) : setLines s (lines s) = s.
Proof. destruct s; reflexivity. Qed.

Lemma run_moves (ps : list Vector2d) :
  forall (s : App) (rest : list Event) (earlier : list DrawingLine)
         (l : DrawingLine),
    isDrawing s = true ->
    lines s = earlier ++ [l] ->
    run s (map (fun p => MouseMove (Some p)) ps ++ rest)
    = run (setLines s
             (earlier ++
                [DrawingLine.mk (DrawingLine.color l)
                                (DrawingLine.points l ++ flat ps)
                                (DrawingLine.size l) (DrawingLine.tool l)]))
          rest.
Proof.
  induction ps as [| p ps IH]; intros s rest earlier l Hd Hl.
  - simpl. rewrite app_nil_r. destruct l; simpl.
    rewrite <- Hl, setLines_same. reflexivity.
  - simpl. unfold handleMouseMove. rewrite Hd. simpl.
    rewrite Hl, moveUpdater_last.
    rewrite (IH _ rest earlier (extended l p)) by (simpl; auto).
    simpl. rewrite <- app_assoc. reflexivity.
Qed.

Lemma run_gesture (s : App) (p0 : Vector2d) (ps : list Vector2d) :
  run s (gesture p0 ps)
  = Done (handleMouseUp
            (setLines (setIsDrawing s true) (lines s ++ [drawn s p0 ps]))).
Proof.
  unfold gesture. cbn [run dispatch handleMouseDown].
  rewrite (run_moves ps _ [MouseUp] (lines s) (opened s p0))
    by reflexivity.
  reflexivity.
Qed.

(** The sample states are states of the component: stroke A with the pen,
    stroke B with the eraser, then one undo. *)
Example two_strokes_reached :
  run initial
      (gesture (Vector2d.mk 10 10) [Vector2d.mk 20 20; Vector2d.mk 30 10]
       ++ [ToolClick eraser; PickColor "#000000"]
       ++ gesture (Vector2d.mk 5 5) [Vector2d.mk 6 7])
  = Done two_strokes
  /\ handleUndo two_strokes = second_undone
  /\ lines (handleUndo second_undone) = []
  /\ handleRedo (handleUndo second_undone) = second_undone.
Proof. repeat split. Qed.

(** ** The history engine *)

(** C1: a commit, as [handleMouseUp] does it with the strokes on display and
    [handleClearCanvas] with the empty canvas, keeps the snapshots at indices
    0 through the cursor, appends the committed state as the last entry and
    puts the cursor on it ([historyStep = history.length - 1]); right after
    it redo is disabled. *)
Theorem commit_truncates_and_appends (s : App) (Hinv : history_inv s) :
  (committed s (lines s) (handleMouseUp s)
   /\ canRedo (handleMouseUp s) = false)
  /\ (committed s [] (handleClearCanvas s)
      /\ canRedo (handleClearCanvas s) = false).
Proof.
  pose proof (handleMouseUp_committed s Hinv) as Hup.
  pose proof (handleClearCanvas_committed s Hinv) as Hcl.
  repeat split; try apply Hup; try apply Hcl;
    eapply committed_no_redo; eassumption.
Qed.

(** A commit below the top of the history: the redo entry
    [[strokeA; strokeB]] is dropped. *)
Lemma commit_truncates_and_appends_witness :
  history_inv second_undone
  /\ canRedo second_undone = true
  /\ history (handleMouseUp second_undone) = [[]; [strokeA]; [strokeA]]
  /\ (committed second_undone (lines second_undone)
                (handleMouseUp second_undone)
      /\ canRedo (handleMouseUp second_undone) = false)
  /\ (committed second_undone [] (handleClearCanvas second_undone)
      /\ canRedo (handleClearCanvas second_undone) = false).
Proof.
  assert (H : history_inv second_undone)
    by (unfold history_inv, Js.len; simpl; lia).
  split; [exact H |].
  split; [reflexivity |].
  split; [reflexivity |].
  exact (commit_truncates_and_appends second_undone H).
Defined.

(** C2: in the initial state no gesture is in progress, and a pointer-up
    delivered there is not a no-op: [handleMouseUp] commits the strokes on
    display once more, so the history grows to two entries and the cursor
    moves to 1. *)
Theorem idle_end_commits :
  isDrawing initial = false
  /\ dispatch initial MouseUp
     = Done (mkApp pen [] [[]; []] 1 "#df4b26" 6 12 false)
  /\ history (handleMouseUp initial) <> history initial
  /\ historyStep (handleMouseUp initial) <> historyStep initial.
Proof.
  split; [reflexivity |].
  split; [reflexivity |].
  split; [discriminate | discriminate].
Qed.

(** The same at any reachable state: the guard on [isDrawing] that
    [handleMouseMove] has is missing from [handleMouseUp]. *)
Lemma handleMouseUp_moves_cursor (s : App) :
  historyStep (handleMouseUp s) = historyStep s + 1.
Proof. reflexivity. Qed.

(** C3: with the cursor above 0, [handleUndo] moves the cursor down by one
    and displays the snapshot at the new cursor, leaving the snapshot list
    alone; with the cursor at 0 it changes nothing; and it never raises. *)
Theorem undo_spec (s : App) (Hinv : history_inv s) :
  (0 < historyStep s ->
   historyStep (handleUndo s) = historyStep s - 1
   /\ history (handleUndo s) = history s
   /\ Js.get (history s) (historyStep (handleUndo s))
      = Some (lines (handleUndo s)))
  /\ (historyStep s = 0 -> handleUndo s = s)
  /\ dispatch s Undo = Done (handleUndo s).
Proof.
  split; [| split].
  - intros Hpos. destruct (handleUndo_step s Hinv Hpos) as (snap & Hsnap & ->).
    simpl. auto.
  - intros H0. apply handleUndo_bottom. lia.
  - reflexivity.
Qed.

Lemma undo_spec_witness :
  (historyStep (handleUndo two_strokes) = 1
   /\ lines (handleUndo two_strokes) = [strokeA])
  /\ handleUndo initial = initial.
Proof.
  assert (H2 : history_inv two_strokes)
    by (unfold history_inv, Js.len; simpl; lia).
  split.
  - destruct (undo_spec two_strokes H2) as (Hstep & _ & _).
    destruct Hstep as (Hc & _ & Hl); [simpl; lia |].
    split; [exact Hc |].
    remember (lines (handleUndo two_strokes)) as shown.
    rewrite Hc in Hl. injection Hl as Hl. rewrite <- Hl. reflexivity.
  - destruct (undo_spec initial history_inv_initial) as (_ & Hbot & _).
    apply Hbot. reflexivity.
Defined.

(** C4: with the cursor below the last snapshot, [handleRedo] moves the
    cursor up by one and displays the snapshot at the new cursor, leaving
    the snapshot list alone; with the cursor on the last snapshot it changes
    nothing. *)
Theorem redo_spec (s : App) (Hinv : history_inv s) :
  (historyStep s < Js.len (history s) - 1 ->
   historyStep (handleRedo s) = historyStep s + 1
   /\ history (handleRedo s) = history s
   /\ Js.get (history s) (historyStep (handleRedo s))
      = Some (lines (handleRedo s)))
  /\ (historyStep s = Js.len (history s) - 1 -> handleRedo s = s)
  /\ dispatch s Redo = Done (handleRedo s).
Proof.
  split; [| split].
  - intros Hlt. destruct (handleRedo_step s Hinv Hlt) as (snap & Hsnap & ->).
    simpl. auto.
  - intros Htop. apply handleRedo_top. lia.
  - reflexivity.
Qed.

Lemma redo_spec_witness :
  (historyStep (handleRedo second_undone) = 2
   /\ lines (handleRedo second_undone) = [strokeA; strokeB])
  /\ handleRedo two_strokes = two_strokes.
Proof.
  assert (H1 : history_inv second_undone)
    by (unfold history_inv, Js.len; simpl; lia).
  assert (H2 : history_inv two_strokes)
    by (unfold history_inv, Js.len; simpl; lia).
  split.
  - destruct (redo_spec second_undone H1) as (Hstep & _ & _).
    destruct Hstep as (Hc & _ & Hl); [unfold Js.len; simpl; lia |].
    split; [exact Hc |].
    remember (lines (handleRedo second_undone)) as shown.
    rewrite Hc in Hl. injection Hl as Hl. rewrite <- Hl. reflexivity.
  - destruct (redo_spec two_strokes H2) as (_ & Htop & _).
    apply Htop. reflexivity.
Defined.

Lemma handleRedo_handleUndo (s : App) :
  history_inv s -> synced s -> 0 < historyStep s ->
  handleRedo (handleUndo s) = s.
Proof.
  intros Hinv Hshown Hpos.
  destruct (handleUndo_step s Hinv Hpos) as (snap & _ & ->).
  destruct Hinv as [Hlo Hhi]. unfold synced in Hshown.
  unfold handleRedo. cbn [historyStep history setLines setHistoryStep].
  destruct (Z.ltb_spec (historyStep s - 1) (Js.len (history s) - 1));
    [| lia].
  replace (historyStep s - 1 + 1) with (historyStep s) by lia.
  rewrite Hshown. destruct s; reflexivity.
Qed.

(** Every state reached with no gesture in progress meets the premises of
    the round trip. *)
Lemma handleRedo_handleUndo_idle (s : App) :
  reachable s -> isDrawing s = false -> 0 < historyStep s ->
  handleRedo (handleUndo s) = s.
Proof.
  intros Hr Hidle Hpos.
  apply handleRedo_handleUndo;
    [apply history_inv_reachable | apply idle_synced_reachable |];
    assumption.
Qed.

(** C5: with the cursor above 0, undo followed at once by redo puts the
    cursor back where it was, leaves the snapshots as they were and displays
    the snapshot under that cursor; so when the state displayed that
    snapshot before the undo (outside a gesture it always does), the state
    after the two steps is the very same state: the same strokes in the same
    order, the same cursor. *)
Theorem undo_redo_roundtrip (s : App)
        (Hinv : history_inv s) (Hpos : 0 < historyStep s) :
  historyStep (handleRedo (handleUndo s)) = historyStep s
  /\ history (handleRedo (handleUndo s)) = history s
  /\ Js.get (history s) (historyStep s)
     = Some (lines (handleRedo (handleUndo s)))
  /\ (synced s -> handleRedo (handleUndo s) = s)
  /\ (reachable s -> isDrawing s = false -> handleRedo (handleUndo s) = s).
Proof.
  destruct (get_in_range (history s) (historyStep s) Hinv) as [snap Hsnap].
  pose proof (handleRedo_handleUndo (setLines s snap)) as Hrt.
  assert (Hsame : handleUndo (setLines s snap) = handleUndo s).
  { unfold handleUndo. cbn [historyStep history setLines setHistoryStep].
    destruct (historyStep s >? 0) eqn:E; [reflexivity |].
    destruct (Z.gtb_spec (historyStep s) 0); [discriminate | lia]. }
  rewrite Hsame in Hrt.
  rewrite Hrt by (try exact Hinv; try exact Hpos; exact Hsnap).
  cbn [historyStep history lines setLines].
  repeat split.
  - exact Hsnap.
  - intros Hshown. unfold synced in Hshown.
    rewrite Hshown in Hsnap. injection Hsnap as <-. apply setLines_same.
  - intros Hr Hidle. pose proof (idle_synced_reachable s Hr Hidle) as Hshown.
    unfold synced in Hshown.
    rewrite Hshown in Hsnap. injection Hsnap as <-. apply setLines_same.
Qed.

Lemma undo_redo_roundtrip_witness :
  handleRedo (handleUndo two_strokes) = two_strokes.
Proof.
  assert (H : history_inv two_strokes)
    by (unfold history_inv, Js.len; simpl; lia).
  assert (Hpos : 0 < historyStep two_strokes) by (simpl; lia).
  destruct (undo_redo_roundtrip two_strokes H Hpos) as (_ & _ & _ & Hs & _).
  apply Hs. reflexivity.
Defined.

(** C6: [handleClearCanvas] leaves the same strokes, snapshots and cursor as
    committing the empty canvas (emptying the strokes and running the commit
    of [handleMouseUp]); so two clears in a row append two entries, both
    empty, at the two indices after the old cursor, and one undo after them
    lands on the entry of the first clear, one above the old cursor, with the
    empty canvas on display. *)
Theorem clear_is_commit_of_empty (s : App) (Hinv : history_inv s) :
  (lines (handleClearCanvas s) = lines (handleMouseUp (setLines s []))
   /\ history (handleClearCanvas s) = history (handleMouseUp (setLines s []))
   /\ historyStep (handleClearCanvas s)
      = historyStep (handleMouseUp (setLines s [])))
  /\ (history (handleClearCanvas (handleClearCanvas s))
      = firstn (Z.to_nat (historyStep s + 1)) (history s) ++ [[]; []]
      /\ historyStep (handleClearCanvas (handleClearCanvas s))
         = historyStep s + 2)
  /\ (historyStep (handleUndo (handleClearCanvas (handleClearCanvas s)))
      = historyStep s + 1
      /\ historyStep (handleUndo (handleClearCanvas (handleClearCanvas s)))
         = historyStep (handleClearCanvas s)
      /\ lines (handleUndo (handleClearCanvas (handleClearCanvas s))) = []
      /\ history (handleUndo (handleClearCanvas (handleClearCanvas s)))
         = history (handleClearCanvas (handleClearCanvas s))
      /\ Js.get (history (handleClearCanvas (handleClearCanvas s)))
                (historyStep s + 1) = Some []
      /\ Js.get (history (handleClearCanvas (handleClearCanvas s)))
                (historyStep s + 2) = Some []).
Proof.
  pose proof (handleClearCanvas_committed s Hinv) as H1.
  pose proof (committed_inv _ _ _ Hinv H1) as Hinv1.
  pose proof (handleClearCanvas_committed _ Hinv1) as H2.
  pose proof (committed_inv _ _ _ Hinv1 H2) as Hinv2.
  set (c1 := handleClearCanvas s) in *.
  set (c2 := handleClearCanvas c1) in *.
  destruct H1 as (Hh1 & _ & Hnew1 & Hlen1 & Hcur1).
  destruct H2 as (Hh2 & Hkept2 & Hnew2 & Hlen2 & Hcur2).
  assert (Hs1 : historyStep c1 = historyStep s + 1) by lia.
  assert (Hs2 : historyStep c2 = historyStep s + 2) by lia.
  assert (Hat1 : Js.get (history c2) (historyStep s + 1) = Some []).
  { rewrite <- Hnew1. rewrite <- Hs1. apply Hkept2.
    destruct Hinv1; lia. }
  split; [repeat split |].
  split.
  - split; [| exact Hs2].
    rewrite Hh2, Hs1.
    replace (Z.to_nat (historyStep s + 1 + 1))
      with (List.length (history c1)) by (unfold Js.len in Hlen1; lia).
    rewrite firstn_all, Hh1, <- app_assoc. reflexivity.
  - destruct (handleUndo_step c2 Hinv2) as (snap & Hsnap & ->);
      [destruct Hinv; lia |].
    cbn [historyStep lines history setLines setHistoryStep].
    replace (historyStep c2 - 1) with (historyStep s + 1) in * by lia.
    rewrite Hat1 in Hsnap. injection Hsnap as <-.
    repeat split; try lia; try assumption.
    replace (historyStep s + 2) with (historyStep c1 + 1) by lia.
    exact Hnew2.
Qed.

(** Two clears over a drawing of two strokes, then one undo: the cursor is
    on the first clear's entry, not on the drawing. *)
Lemma clear_is_commit_of_empty_witness :
  history (handleClearCanvas (handleClearCanvas two_strokes))
  = [[]; [strokeA]; [strokeA; strokeB]; []; []]
  /\ historyStep (handleUndo (handleClearCanvas (handleClearCanvas two_strokes)))
     = 3
  /\ lines (handleUndo (handleClearCanvas (handleClearCanvas two_strokes)))
     = [].
Proof.
  assert (H : history_inv two_strokes)
    by (unfold history_inv, Js.len; simpl; lia).
  destruct (clear_is_commit_of_empty two_strokes H)
    as (_ & (Hh & _) & (Hc & _ & Hl & _)).
  split; [exact Hh |]. split; [exact Hc | exact Hl].
Defined.

(** ** The capture controller *)

(** C7: a pointer-down at [p0], moves through [p1 .. pn] and a pointer-up
    add one stroke whose points are the coordinates of [p0, p1, .., pn] in
    that order and nothing more, and commit the strokes with it; from the
    initial state, down at (10,10), moves to (20,20) and (30,10) and up give
    a history of two snapshots, the cursor at 1 and the one stroke with
    points [10,10,20,20,30,10]. *)
Theorem gesture_points :
  (forall (s : App) (p0 : Vector2d) (ps : list Vector2d),
      exists s',
        run s (gesture p0 ps) = Done s'
        /\ lines s' = lines s ++ [drawn s p0 ps]
        /\ DrawingLine.points (drawn s p0 ps) = flat (p0 :: ps)
        /\ history s'
           = Js.slice0 (history s) (historyStep s + 1) ++ [lines s']
        /\ historyStep s' = historyStep s + 1
        /\ isDrawing s' = false)
  /\ run initial
         (gesture (Vector2d.mk 10 10) [Vector2d.mk 20 20; Vector2d.mk 30 10])
     = Done (mkApp pen
                   [DrawingLine.mk "#df4b26" [10; 10; 20; 20; 30; 10] 6 pen]
                   [[];
                    [DrawingLine.mk "#df4b26" [10; 10; 20; 20; 30; 10] 6 pen]]
                   1 "#df4b26" 6 12 false).
Proof.
  split.
  - intros s p0 ps. eexists. split; [apply run_gesture |].
    repeat split.
  - reflexivity.
Qed.

(** What [handleMouseMove] does keep: with no gesture in progress a move
    changes nothing and does not raise, whatever the event carries; during a
    gesture a move appends its position to the last stroke of the list and
    leaves the strokes before it (and the rest of the state) as they are;
    right after a pointer-down the last stroke is the one just created.
    That the last stroke of the list need not be the one the gesture
    created is shown at the end of the file. *)
Theorem move_idle_ignored_capturing_extends_last :
  (forall (s : App) (ev : Pointer),
      isDrawing s = false -> handleMouseMove s ev = Done s)
  /\ (forall (s : App) (p : Vector2d) (earlier : list DrawingLine)
             (l : DrawingLine),
         isDrawing s = true ->
         lines s = earlier ++ [l] ->
         handleMouseMove s (Some p)
         = Done (setLines s (earlier ++ [extended l p])))
  /\ (forall (s : App) (p0 p : Vector2d),
         run s [MouseDown (Some p0); MouseMove (Some p)]
         = Done (setLines (setIsDrawing s true)
                          (lines s ++ [extended (opened s p0) p]))).
Proof.
  split; [| split].
  - intros s ev Hidle. unfold handleMouseMove. rewrite Hidle. reflexivity.
  - intros s p earlier l Hd Hl. unfold handleMouseMove.
    rewrite Hd, Hl, moveUpdater_last. reflexivity.
  - intros s p0 p. cbn [run dispatch handleMouseDown].
    unfold handleMouseMove. cbn [isDrawing setLines setIsDrawing negb lines].
    change (opened s p0) with
      (DrawingLine.mk (color s) [Vector2d.x p0; Vector2d.y p0]
                      (currentSize s) (tool s)).
    rewrite moveUpdater_last. reflexivity.
Qed.

(** ** The invariant of the history *)

Lemma reachable_run (es : list Event) :
  forall s : App, reachable s -> reachable (state_of (run s es)).
Proof.
  induction es as [| e es IH]; intros s Hr; simpl.
  - exact Hr.
  - pose proof (reach_dispatch s e Hr) as Hr'.
    destruct (dispatch s e) as [s' | s' | s']; simpl in *.
    + apply IH, Hr'.
    + exact Hr'.
    + exact Hr'.
Qed.

Lemma reachable_deliver (es : list Event) :
  forall s : App, reachable s -> reachable (deliver s es).
Proof.
  induction es as [| e es IH]; intros s Hr; simpl.
  - exact Hr.
  - pose proof (reach_dispatch s e Hr) as Hr'.
    destruct (dispatch s e) as [s' | s' | s']; simpl in *.
    + apply IH, Hr'.
    + apply IH, Hr'.
    + exact Hr'.
Qed.

Lemma history_inv_deliver (es : list Event) :
  history_inv (deliver initial es).
Proof. apply history_inv_reachable, reachable_deliver, reach_initial. Qed.

Lemma run_Done_deliver (es : list Event) :
  forall s s' : App, run s es = Done s' -> deliver s es = s'.
Proof.
  induction es as [| e es IH]; intros s s' H; simpl in *.
  - congruence.
  - destruct (dispatch s e) as [s1 | s1 | s1]; try discriminate.
    apply IH, H.
Qed.

(** C9: [0 <= historyStep < history.length] holds in the initial state (one
    empty snapshot, cursor 0), every event of the interface keeps it (also
    one whose handler raises), so it holds in every state the component
    reaches and after every run of events, and the cursor always designates
    a snapshot. *)
Theorem history_inv_always :
  (history initial = [[]] /\ historyStep initial = 0 /\ history_inv initial)
  /\ (forall (s : App) (e : Event),
         history_inv s -> history_inv (state_of (dispatch s e)))
  /\ (forall s : App,
         reachable s ->
         history_inv s
         /\ exists snap, Js.get (history s) (historyStep s) = Some snap)
  /\ (forall es : list Event, history_inv (state_of (run initial es))).
Proof.
  split; [| split; [| split]].
  - repeat split; apply history_inv_initial.
  - apply history_inv_dispatch.
  - intros s Hr. pose proof (history_inv_reachable s Hr) as Hinv.
    split; [exact Hinv | apply get_in_range, Hinv].
  - intros es. apply history_inv_reachable, reachable_run, reach_initial.
Qed.

Lemma history_inv_always_witness :
  history_inv
    (state_of
       (run initial
            [MouseDown (Some (Vector2d.mk 1 2)); MouseMove (Some (Vector2d.mk 3 4));
             MouseUp; Undo; Undo; Redo; Redo; ClearCanvas; MouseUp;
             MouseDown None; Undo])).
Proof.
  destruct history_inv_always as (_ & _ & _ & Hrun). apply Hrun.
Defined.

(** ** Stroke sizes *)

(** C10: the pen and the eraser have a size each.  Picking a size writes the
    size of the selected tool and nothing else; a pointer-down creates the
    stroke with the selected tool and the size stored for that tool; so a
    size picked under one tool is the size of the next stroke of that tool,
    while a stroke of the other tool still gets the other size. *)
Theorem size_per_tool (s : App) (v : Z) :
  (tool s = pen ->
   setCurrentSize s v = setPenSize s v
   /\ penSize (setCurrentSize s v) = v
   /\ eraserSize (setCurrentSize s v) = eraserSize s)
  /\ (tool s = eraser ->
      setCurrentSize s v = setEraserSize s v
      /\ eraserSize (setCurrentSize s v) = v
      /\ penSize (setCurrentSize s v) = penSize s)
  /\ (tool (setCurrentSize s v) = tool s
      /\ lines (setCurrentSize s v) = lines s
      /\ history (setCurrentSize s v) = history s
      /\ historyStep (setCurrentSize s v) = historyStep s
      /\ color (setCurrentSize s v) = color s
      /\ isDrawing (setCurrentSize s v) = isDrawing s)
  /\ (forall p : Vector2d,
         handleMouseDown s (Some p)
         = Done (setLines (setIsDrawing s true) (lines s ++ [opened s p]))
         /\ DrawingLine.tool (opened s p) = tool s
         /\ DrawingLine.size (opened s p)
            = match tool s with pen => penSize s | eraser => eraserSize s end)
  /\ (forall (p : Vector2d) (t : Tool),
         DrawingLine.size (opened (handleToolClick (setCurrentSize s v) t) p)
         = match tool s, t with
           | pen, pen | eraser, eraser => v
           | pen, eraser => eraserSize s
           | eraser, pen => penSize s
           end).
Proof.
  split; [| split; [| split; [| split]]].
  - intros Hpen. unfold setCurrentSize. rewrite Hpen.
    split; [| split]; reflexivity.
  - intros Her. unfold setCurrentSize. rewrite Her.
    split; [| split]; reflexivity.
  - destruct s as [[] ? ? ? ? ? ? ?]; repeat split; reflexivity.
  - intros p. split; [| split]; reflexivity.
  - intros p t. unfold opened, currentSize, setCurrentSize.
    destruct (tool s), t; reflexivity.
Qed.

(** With the pen selected, picking 20 leaves the eraser at 12: the next pen
    stroke is 20 wide, the next eraser stroke 12. *)
Lemma size_per_tool_witness :
  penSize (setCurrentSize initial 20) = 20
  /\ eraserSize (setCurrentSize initial 20) = 12
  /\ DrawingLine.size
       (opened (handleToolClick (setCurrentSize initial 20) pen)
               (Vector2d.mk 0 0)) = 20
  /\ DrawingLine.size
       (opened (handleToolClick (setCurrentSize initial 20) eraser)
               (Vector2d.mk 0 0)) = 12.
Proof.
  destruct (size_per_tool initial 20) as (Hpen & _ & _ & _ & Hnext).
  destruct (Hpen eq_refl) as (_ & Hp & He).
  split; [exact Hp |]. split; [exact He |].
  split; [exact (Hnext (Vector2d.mk 0 0) pen)
         | exact (Hnext (Vector2d.mk 0 0) eraser)].
Defined.

(** ** What the events leave alone *)

Lemma history_handleUndo (s : App) : history (handleUndo s) = history s.
Proof. unfold handleUndo. destruct (historyStep s >? 0); reflexivity. Qed.

Lemma history_handleRedo (s : App) : history (handleRedo s) = history s.
Proof.
  unfold handleRedo.
  destruct (historyStep s <? Js.len (history s) - 1); reflexivity.
Qed.

Lemma history_handleMouseDown (s : App) (ev : Pointer) :
  history (state_of (handleMouseDown s ev)) = history s
  /\ historyStep (state_of (handleMouseDown s ev)) = historyStep s.
Proof. destruct ev; split; reflexivity. Qed.

Lemma history_handleMouseMove (s : App) (ev : Pointer) :
  history (state_of (handleMouseMove s ev)) = history s
  /\ historyStep (state_of (handleMouseMove s ev)) = historyStep s.
Proof.
  unfold handleMouseMove. destruct (isDrawing s); simpl; [| split; reflexivity].
  destruct (moveUpdater ev (lines s)); split; reflexivity.
Qed.

Lemma dispatch_keeps_prefix (s : App) (e : Event) :
  history_inv s ->
  forall i, 0 <= i <= historyStep s ->
            Js.get (history (state_of (dispatch s e))) i
            = Js.get (history s) i.
Proof.
  intros Hinv i Hi. destruct e; simpl.
  - destruct (history_handleMouseDown s p) as [-> _]. reflexivity.
  - destruct (history_handleMouseMove s p) as [-> _]. reflexivity.
  - destruct (handleMouseUp_committed s Hinv) as (_ & Hkept & _).
    apply Hkept, Hi.
  - rewrite history_handleUndo. reflexivity.
  - rewrite history_handleRedo. reflexivity.
  - destruct (handleClearCanvas_committed s Hinv) as (_ & Hkept & _).
    apply Hkept, Hi.
  - reflexivity.
  - reflexivity.
  - unfold setCurrentSize. destruct (tool s); reflexivity.
Qed.

Lemma first_snapshot_reachable (s : App) :
  reachable s -> Js.get (history s) 0 = Some [].
Proof.
  induction 1 as [| s e Hr IH].
  - reflexivity.
  - pose proof (history_inv_reachable s Hr) as Hinv.
    rewrite dispatch_keeps_prefix; [exact IH | exact Hinv |].
    destruct Hinv; lia.
Qed.

Lemma iter_handleUndo (k : nat) :
  forall s : App,
    history_inv s -> Z.of_nat k <= historyStep s ->
    historyStep (Nat.iter k handleUndo s) = historyStep s - Z.of_nat k
    /\ history (Nat.iter k handleUndo s) = history s
    /\ ((0 < k)%nat ->
        Js.get (history s) (historyStep s - Z.of_nat k)
        = Some (lines (Nat.iter k handleUndo s))).
Proof.
  induction k as [| k IH]; intros s Hinv Hk.
  - simpl. repeat split; [lia | intros; lia].
  - destruct (IH s Hinv) as (Hstep & Hhist & _); [lia |].
    cbn [Nat.iter nat_rect]. fold (Nat.iter k handleUndo s).
    set (u := Nat.iter k handleUndo s) in *.
    assert (Hinvu : history_inv u).
    { unfold history_inv in *. rewrite Hstep, Hhist. lia. }
    destruct (handleUndo_step u Hinvu) as (snap & Hsnap & ->); [lia |].
    cbn [historyStep history lines setLines setHistoryStep].
    rewrite Hstep, Hhist in *.
    replace (historyStep s - Z.of_nat (S k))
      with (historyStep s - Z.of_nat k - 1) by lia.
    repeat split. intros _. exact Hsnap.
Qed.

(** ** More on undo and redo *)

(** X1: the undo button is enabled exactly when [handleUndo] changes the
    state, and the redo button exactly when [handleRedo] does. *)
Theorem buttons_enabled_iff_effect (s : App) :
  (canUndo s = true <-> handleUndo s <> s)
  /\ (canRedo s = true <-> handleRedo s <> s).
Proof.
  split.
  - unfold canUndo. destruct (Z.leb_spec (historyStep s) 0) as [Hle | Hgt].
    + rewrite handleUndo_bottom by exact Hle. simpl.
      split; [discriminate | intros H; exfalso; apply H; reflexivity].
    + simpl. split; [| reflexivity].
      intros _ Heq. apply (f_equal historyStep) in Heq.
      unfold handleUndo in Heq.
      destruct (Z.gtb_spec (historyStep s) 0); [simpl in Heq |]; lia.
  - unfold canRedo.
    destruct (Z.geb_spec (historyStep s) (Js.len (history s) - 1))
      as [Hge | Hlt].
    + rewrite handleRedo_top by lia. simpl.
      split; [discriminate | intros H; exfalso; apply H; reflexivity].
    + simpl. split; [| reflexivity].
      intros _ Heq. apply (f_equal historyStep) in Heq.
      unfold handleRedo in Heq.
      destruct (Z.ltb_spec (historyStep s) (Js.len (history s) - 1));
        [simpl in Heq |]; lia.
Qed.

(** X2: from a state that displays the snapshot under its cursor, with a
    snapshot above the cursor, redo followed at once by undo gives back the
    same state. *)
Theorem redo_undo_roundtrip (s : App)
        (Hinv : history_inv s) (Hshown : synced s)
        (Hbelow : historyStep s < Js.len (history s) - 1) :
  handleUndo (handleRedo s) = s.
Proof.
  destruct (handleRedo_step s Hinv Hbelow) as (snap & _ & ->).
  destruct Hinv as [Hlo Hhi]. unfold synced in Hshown.
  unfold handleUndo. cbn [historyStep history setLines setHistoryStep].
  destruct (Z.gtb_spec (historyStep s + 1) 0); [| lia].
  replace (historyStep s + 1 - 1) with (historyStep s) by lia.
  rewrite Hshown. destruct s; reflexivity.
Qed.

Lemma redo_undo_roundtrip_witness :
  handleUndo (handleRedo second_undone) = second_undone.
Proof.
  apply redo_undo_roundtrip.
  - unfold history_inv, Js.len; simpl; lia.
  - reflexivity.
  - unfold Js.len; simpl; lia.
Defined.

Lemma reachable_two_strokes : reachable two_strokes.
Proof.
  exact (reachable_run
           (gesture (Vector2d.mk 10 10) [Vector2d.mk 20 20; Vector2d.mk 30 10]
            ++ [ToolClick eraser; PickColor "#000000"]
            ++ gesture (Vector2d.mk 5 5) [Vector2d.mk 6 7])
           initial reach_initial).
Defined.

(** X3: the first snapshot of the history is always the empty canvas, and
    pressing undo as often as the cursor is high, with no gesture in
    progress, ends on it: the cursor is 0, nothing is on display and the
    snapshots are all still there. *)
Theorem undo_to_the_bottom (s : App)
        (Hr : reachable s) (Hidle : isDrawing s = false) :
  Js.get (history s) 0 = Some []
  /\ historyStep (undoAll s) = 0
  /\ lines (undoAll s) = []
  /\ history (undoAll s) = history s
  /\ canUndo (undoAll s) = false.
Proof.
  pose proof (history_inv_reachable s Hr) as Hinv.
  pose proof (first_snapshot_reachable s Hr) as Hfirst.
  unfold undoAll, canUndo.
  destruct (iter_handleUndo (Z.to_nat (historyStep s)) s Hinv)
    as (Hstep & Hhist & Hshown); [destruct Hinv; lia |].
  assert (H0 : historyStep (Nat.iter (Z.to_nat (historyStep s)) handleUndo s)
               = 0) by (destruct Hinv; lia).
  rewrite H0. repeat split; try assumption.
  destruct (Z.to_nat (historyStep s)) as [| k] eqn:Hk.
  - simpl. pose proof (idle_synced_reachable s Hr Hidle) as Hs.
    unfold synced in Hs. replace (historyStep s) with 0 in Hs
      by (destruct Hinv; lia).
    congruence.
  - rewrite <- Hk in *.
    assert (Hpos : (0 < Z.to_nat (historyStep s))%nat) by lia.
    specialize (Hshown Hpos).
    replace (historyStep s - Z.of_nat (Z.to_nat (historyStep s))) with 0
      in Hshown by (destruct Hinv; lia).
    congruence.
Qed.

Lemma undo_to_the_bottom_witness :
  historyStep (undoAll two_strokes) = 0 /\ lines (undoAll two_strokes) = [].
Proof.
  destruct (undo_to_the_bottom two_strokes reachable_two_strokes eq_refl)
    as (_ & Hc & Hl & _).
  split; [exact Hc | exact Hl].
Defined.

(** X4: no event rewrites the past: the snapshots at indices 0 through the
    cursor are the same after any event; only a pointer-up and a clear touch
    the snapshot list at all, and they make it at most one entry longer. *)
Theorem history_prefix_stable (s : App) (e : Event) (Hinv : history_inv s) :
  (forall i, 0 <= i <= historyStep s ->
             Js.get (history (state_of (dispatch s e))) i
             = Js.get (history s) i)
  /\ (e <> MouseUp -> e <> ClearCanvas ->
      history (state_of (dispatch s e)) = history s)
  /\ 1 <= Js.len (history (state_of (dispatch s e)))
     <= Js.len (history s) + 1.
Proof.
  split; [apply dispatch_keeps_prefix, Hinv |].
  assert (Hframe : e <> MouseUp -> e <> ClearCanvas ->
                   history (state_of (dispatch s e)) = history s).
  { intros Hup Hcl. destruct e; simpl; try congruence.
    - apply history_handleMouseDown.
    - apply history_handleMouseMove.
    - apply history_handleUndo.
    - apply history_handleRedo.
    - unfold setCurrentSize. destruct (tool s); reflexivity. }
  split; [exact Hframe |].
  pose proof (history_inv_dispatch s e Hinv) as Hinv'.
  unfold history_inv in Hinv, Hinv'.
  split; [lia |].
  destruct e;
    try (rewrite Hframe by discriminate; lia); simpl.
  - destruct (handleMouseUp_committed s Hinv) as (_ & _ & _ & Hlen & _).
    simpl in Hlen. lia.
  - destruct (handleClearCanvas_committed s Hinv) as (_ & _ & _ & Hlen & _).
    simpl in Hlen. lia.
Qed.

Lemma history_prefix_stable_witness :
  Js.get (history (state_of (dispatch second_undone MouseUp))) 1
  = Some [strokeA]
  /\ history (state_of (dispatch second_undone Undo))
     = history second_undone.
Proof.
  assert (H : history_inv second_undone)
    by (unfold history_inv, Js.len; simpl; lia).
  destruct (history_prefix_stable second_undone MouseUp H) as (Hkept & _).
  destruct (history_prefix_stable second_undone Undo H) as (_ & Hframe & _).
  split.
  - rewrite Hkept; [reflexivity | simpl; lia].
  - apply Hframe; discriminate.
Defined.

(** X5: whenever no gesture is in progress, the strokes on display are the
    snapshot under the cursor, so what the [Layer] paints is that
    snapshot. *)
Theorem idle_displays_snapshot (s : App)
        (Hr : reachable s) (Hidle : isDrawing s = false) :
  Js.get (history s) (historyStep s) = Some (lines s)
  /\ option_map (map getLineProps) (Js.get (history s) (historyStep s))
     = Some (layer s).
Proof.
  pose proof (idle_synced_reachable s Hr Hidle) as Hs. unfold synced in Hs.
  split; [exact Hs |]. rewrite Hs. reflexivity.
Qed.

Lemma idle_displays_snapshot_witness :
  Js.get (history two_strokes) 2 = Some [strokeA; strokeB].
Proof.
  destruct (idle_displays_snapshot two_strokes reachable_two_strokes eq_refl)
    as (H & _).
  exact H.
Defined.

(** ** Properties every stroke keeps *)

Lemma Forall_get {A : Type} (Q : A -> Prop) (a : list A) (i : Z) (v : A) :
  Forall Q a -> Js.get a i = Some v -> Q v.
Proof.
  intros Ha Hg. unfold Js.get in Hg. destruct (i <? 0); [discriminate |].
  apply nth_error_In in Hg. rewrite Forall_forall in Ha. apply Ha, Hg.
Qed.

Lemma Forall_slice0 {A : Type} (Q : A -> Prop) (a : list A) (e : Z) :
  Forall Q a -> Forall Q (Js.slice0 a e).
Proof.
  intros Ha. unfold Js.slice0.
  set (k := Z.to_nat _).
  rewrite <- (firstn_skipn k a) in Ha. apply Forall_app in Ha. apply Ha.
Qed.

Section StrokeInvariant.

Variable P : DrawingLine -> Prop.
Hypothesis P_extended : forall l p, P l -> P (extended l p).

Lemma moveUpdater_all (point : Pointer) (prevLines l' : list DrawingLine) :
  Forall P prevLines -> moveUpdater point prevLines = Some l' -> Forall P l'.
Proof.
  intros Hall. unfold moveUpdater.
  destruct (Js.len prevLines =? 0); [intros [= <-]; exact Hall |].
  destruct (Js.get prevLines (Js.len prevLines - 1)) as [lastLine |] eqn:Hg;
    [| discriminate].
  destruct point as [p |]; [| discriminate].
  intros [= <-]. apply Forall_app. split.
  - apply Forall_slice0, Hall.
  - constructor; [| constructor].
    apply (P_extended lastLine p). eapply Forall_get; eassumption.
Qed.

Lemma all_strokes_dispatch (s : App) (e : Event) :
  all_strokes P s ->
  (forall p, P (opened s p)) ->
  all_strokes P (state_of (dispatch s e)).
Proof.
  intros [Hl Hh] Hnew. unfold all_strokes. destruct e; simpl.
  - destruct p as [p |]; simpl; split; try assumption.
    apply Forall_app. split; [exact Hl |].
    constructor; [apply (Hnew p) | constructor].
  - unfold handleMouseMove. destruct (isDrawing s); simpl.
    + destruct (moveUpdater p (lines s)) eqn:Hm; simpl; split;
        try assumption.
      eapply moveUpdater_all; eassumption.
    + split; assumption.
  - split; [exact Hl |]. apply Forall_app. split.
    + apply Forall_slice0, Hh.
    + constructor; [exact Hl | constructor].
  - rewrite history_handleUndo. split; [| exact Hh].
    unfold handleUndo. destruct (historyStep s >? 0); [| exact Hl]. simpl.
    destruct (Js.get (history s) (historyStep s - 1)) eqn:Hg; simpl.
    + eapply (Forall_get (Forall P)); eassumption.
    + constructor.
  - rewrite history_handleRedo. split; [| exact Hh].
    unfold handleRedo.
    destruct (historyStep s <? Js.len (history s) - 1); [| exact Hl]. simpl.
    destruct (Js.get (history s) (historyStep s + 1)) eqn:Hg; simpl.
    + eapply (Forall_get (Forall P)); eassumption.
    + constructor.
  - split; [constructor |]. apply Forall_app. split.
    + apply Forall_slice0, Hh.
    + constructor; constructor.
  - split; assumption.
  - split; assumption.
  - unfold setCurrentSize. destruct (tool s); split; assumption.
Qed.

End StrokeInvariant.

Lemma paired_extended (l : DrawingLine) (p : Vector2d) :
  paired l = true -> paired (extended l p) = true.
Proof.
  unfold paired, extended. cbn [DrawingLine.points]. rewrite length_app.
  cbn [List.length]. intros H. apply andb_true_iff in H as [Hev Hge].
  apply Nat.leb_le in Hge. apply andb_true_iff. split.
  - rewrite Nat.even_add, Hev. reflexivity.
  - apply Nat.leb_le. lia.
Qed.

(** X6: in every state the component reaches, each stroke on display and in
    each snapshot holds at least one position and only whole positions: a
    non-empty, even number of coordinates. *)
Theorem strokes_hold_whole_positions (s : App) (Hr : reachable s) :
  all_strokes (fun l => paired l = true) s.
Proof.
  induction Hr as [| s e _ IH].
  - split; [constructor | repeat constructor].
  - apply all_strokes_dispatch; [exact paired_extended | exact IH |].
    intros p. reflexivity.
Qed.

Lemma strokes_hold_whole_positions_witness :
  all_strokes (fun l => paired l = true) two_strokes.
Proof. exact (strokes_hold_whole_positions two_strokes reachable_two_strokes). Defined.

Lemma sizes_offered_dispatch (s : App) (e : Event) :
  offered e -> sizes_offered s -> sizes_offered (state_of (dispatch s e)).
Proof.
  intros He [Hp Her]. unfold sizes_offered. destruct e; simpl;
    try (split; assumption).
  - destruct p; split; assumption.
  - unfold handleMouseMove. destruct (isDrawing s); simpl;
      [destruct (moveUpdater p (lines s)) |]; split; assumption.
  - unfold handleUndo. destruct (historyStep s >? 0); split; assumption.
  - unfold handleRedo.
    destruct (historyStep s <? Js.len (history s) - 1); split; assumption.
  - simpl in He. unfold setCurrentSize.
    destruct (tool s); split; assumption.
Qed.

Lemma sized_deliver (es : list Event) :
  forall s : App,
    Forall offered es -> sizes_offered s -> all_strokes sized s ->
    sizes_offered (deliver s es) /\ all_strokes sized (deliver s es).
Proof.
  induction es as [| e es IH]; intros s Hes Hs Hall.
  - split; assumption.
  - inversion Hes as [| ? ? He Hes']; subst.
    pose proof (sizes_offered_dispatch s e He Hs) as Hs'.
    assert (Hall' : all_strokes sized (state_of (dispatch s e))).
    { apply all_strokes_dispatch; [intros l p H; exact H | exact Hall |].
      intros p. unfold sized, opened, currentSize. simpl.
      destruct Hs. destruct (tool s); assumption. }
    simpl. destruct (dispatch s e) as [s' | s' | s']; simpl in *.
    + apply IH; assumption.
    + apply IH; assumption.
    + split; assumption.
Qed.

(** X7: as long as sizes are picked among [SIZE_OPTIONS], as the toolbar
    does, then after any sequence of events, the ones after a raising
    handler included, the two stored sizes and the width of every stroke,
    on display or in a snapshot, are among [SIZE_OPTIONS], so every width is
    between 2 and 24. *)
Theorem stroke_sizes_are_offered (es : list Event)
        (Hes : Forall offered es) :
  sizes_offered (deliver initial es)
  /\ all_strokes sized (deliver initial es)
  /\ all_strokes (fun l => 2 <= DrawingLine.size l <= 24)
                 (deliver initial es).
Proof.
  assert (Hinit : sizes_offered initial /\ all_strokes sized initial).
  { split; [split; simpl; tauto |].
    split; [constructor | repeat constructor]. }
  destruct (sized_deliver es initial Hes) as (Hs & Hl & Hh); try apply Hinit.
  split; [exact Hs |]. split; [split; assumption |].
  assert (Hb : forall l, sized l -> 2 <= DrawingLine.size l <= 24).
  { intros l Hl'. unfold sized, SIZE_OPTIONS in Hl'. simpl in Hl'.
    repeat (destruct Hl' as [<- | Hl']; [lia |]). contradiction. }
  split.
  - eapply Forall_impl; [exact Hb | exact Hl].
  - eapply Forall_impl; [| exact Hh].
    intros snap Hsnap. eapply Forall_impl; [exact Hb | exact Hsnap].
Qed.

(** A pointer-down with no position raises in the middle of the sequence;
    the strokes drawn after it are covered. *)
Lemma stroke_sizes_are_offered_witness :
  lines
    (deliver initial
             [PickSize 20; MouseDown (Some (Vector2d.mk 1 1)); MouseUp;
              MouseDown None; ToolClick eraser; PickSize 2;
              MouseDown (Some (Vector2d.mk 2 2)); MouseUp])
  = [DrawingLine.mk "#df4b26" [1; 1] 20 pen;
     DrawingLine.mk "#df4b26" [2; 2] 2 eraser]
  /\ all_strokes sized
       (deliver initial
                [PickSize 20; MouseDown (Some (Vector2d.mk 1 1)); MouseUp;
                 MouseDown None; ToolClick eraser; PickSize 2;
                 MouseDown (Some (Vector2d.mk 2 2)); MouseUp]).
Proof.
  split; [reflexivity |].
  refine (proj1 (proj2 (stroke_sizes_are_offered _ _))).
  repeat constructor; simpl; tauto.
Defined.

(** ** Gestures, continued *)

Lemma run_app (a : list Event) :
  forall (s : App) (b : list Event),
    run s (a ++ b)
    = match run s a with
      | Done s' => run s' b
      | Thrown s' => Thrown s'
      | Unmounted s' => Unmounted s'
      end.
Proof.
  induction a as [| e a IH]; intros s b; simpl.
  - reflexivity.
  - destruct (dispatch s e); [apply IH | reflexivity | reflexivity].
Qed.

Lemma run_during_gesture (es : list Event) :
  forall (s : App) (earlier : list DrawingLine) (l : DrawingLine),
    isDrawing s = true ->
    lines s = earlier ++ [l] ->
    forallb during_gesture es = true ->
    exists s',
      run s es = Done s'
      /\ lines s'
         = earlier ++
             [DrawingLine.mk (DrawingLine.color l)
                             (DrawingLine.points l ++ flat (positions es))
                             (DrawingLine.size l) (DrawingLine.tool l)]
      /\ history s' = history s
      /\ historyStep s' = historyStep s
      /\ isDrawing s' = true.
Proof.
  induction es as [| e es IH]; intros s earlier l Hd Hl Hes.
  - exists s. simpl. rewrite app_nil_r. destruct l; simpl. auto.
  - simpl in Hes. apply andb_true_iff in Hes as [He Hes].
    destruct e as [ | [p |] | | | | | t | c | v]; try discriminate; simpl.
    + unfold handleMouseMove. rewrite Hd, Hl, moveUpdater_last. simpl.
      destruct (IH (setLines s (earlier ++ [extended l p])) earlier
                   (extended l p) Hd eq_refl Hes)
        as (s' & Hrun & Hlines & Hh & Hc & Hd').
      exists s'. rewrite Hrun, Hlines. simpl.
      rewrite <- app_assoc. simpl.
      repeat split; assumption.
    + destruct (IH (handleToolClick s t) earlier l Hd Hl Hes)
        as (s' & Hrun & Hlines & Hh & Hc & Hd').
      exists s'. repeat split; assumption.
    + destruct (IH (setColor s c) earlier l Hd Hl Hes)
        as (s' & Hrun & Hlines & Hh & Hc & Hd').
      exists s'. repeat split; assumption.
    + assert (Hsame : lines (setCurrentSize s v) = lines s
                      /\ isDrawing (setCurrentSize s v) = isDrawing s
                      /\ history (setCurrentSize s v) = history s
                      /\ historyStep (setCurrentSize s v) = historyStep s)
        by (unfold setCurrentSize; destruct (tool s); repeat split).
      destruct Hsame as (Hl0 & Hd0 & Hh0 & Hc0).
      destruct (IH (setCurrentSize s v) earlier l)
        as (s' & Hrun & Hlines & Hh & Hc & Hd'); try congruence.
      exists s'. repeat split; congruence.
Qed.

(** X8: the style of a stroke is fixed at the pointer-down.  Whatever tool,
    color and size changes come between the moves of a gesture, the stroke
    keeps the tool, color and size selected when the pointer went down, its
    points are the positions of the pointer-down and of the moves in order,
    and the history is untouched until the pointer-up, which commits the
    strokes with it. *)
Theorem style_fixed_at_pointer_down
        (s : App) (p0 : Vector2d) (es : list Event)
        (Hes : forallb during_gesture es = true) :
  (exists s',
      run s (MouseDown (Some p0) :: es) = Done s'
      /\ lines s' = lines s ++ [drawn s p0 (positions es)]
      /\ history s' = history s
      /\ historyStep s' = historyStep s)
  /\ (exists s',
         run s (MouseDown (Some p0) :: es ++ [MouseUp]) = Done s'
         /\ lines s' = lines s ++ [drawn s p0 (positions es)]
         /\ history s'
            = Js.slice0 (history s) (historyStep s + 1) ++ [lines s']
         /\ historyStep s' = historyStep s + 1).
Proof.
  destruct (run_during_gesture es
              (setLines (setIsDrawing s true) (lines s ++ [opened s p0]))
              (lines s) (opened s p0) eq_refl eq_refl Hes)
    as (s' & Hrun & Hlines & Hh & Hc & Hd).
  simpl in Hh, Hc, Hlines.
  assert (Hrun' : run s (MouseDown (Some p0) :: es) = Done s') by exact Hrun.
  split.
  - exists s'. repeat split; assumption.
  - exists (handleMouseUp s').
    change (MouseDown (Some p0) :: es ++ [MouseUp])
      with ((MouseDown (Some p0) :: es) ++ [MouseUp]).
    rewrite run_app, Hrun'. simpl. rewrite Hlines, Hh, Hc. repeat split.
Qed.

Lemma style_fixed_at_pointer_down_witness :
  exists s',
    run initial
        [MouseDown (Some (Vector2d.mk 1 2)); PickColor "#000000";
         MouseMove (Some (Vector2d.mk 3 4)); ToolClick eraser; PickSize 24;
         MouseMove (Some (Vector2d.mk 5 6)); MouseUp]
    = Done s'
    /\ lines s' = [DrawingLine.mk "#df4b26" [1; 2; 3; 4; 5; 6] 6 pen]
    /\ historyStep s' = 1.
Proof.
  destruct (style_fixed_at_pointer_down
              initial (Vector2d.mk 1 2)
              [PickColor "#000000"; MouseMove (Some (Vector2d.mk 3 4));
               ToolClick eraser; PickSize 24;
               MouseMove (Some (Vector2d.mk 5 6))] eq_refl)
    as (_ & s' & Hrun & Hlines & _ & Hc).
  exists s'. split; [exact Hrun |]. split; [exact Hlines | exact Hc].
Defined.

(** ** Undo after a commit *)

Lemma undo_after_commit (s c : App) (snap : list DrawingLine) :
  history_inv s -> synced s -> committed s snap c ->
  (lines (handleUndo c) = lines s
   /\ historyStep (handleUndo c) = historyStep s
   /\ history (handleUndo c) = history c
   /\ canRedo (handleUndo c) = true)
  /\ (lines (handleRedo (handleUndo c)) = snap
      /\ historyStep (handleRedo (handleUndo c)) = historyStep s + 1
      /\ history (handleRedo (handleUndo c)) = history c).
Proof.
  intros Hinv Hs Hc.
  pose proof (committed_inv s c snap Hinv Hc) as Hinvc.
  destruct Hc as (_ & Hkept & Hnew & Hlen & Hcur).
  destruct Hinv as [Hlo Hhi]. unfold synced in Hs.
  destruct (handleUndo_step c Hinvc) as (old & Hold & ->); [lia |].
  replace (historyStep c - 1) with (historyStep s) in * by lia.
  rewrite Hkept, Hs in Hold by lia. injection Hold as <-.
  assert (Hguard : (historyStep s <? Js.len (history c) - 1) = true)
    by (apply Z.ltb_lt; lia).
  split.
  - cbn [lines historyStep history setLines setHistoryStep].
    repeat split. unfold canRedo. simpl.
    destruct (Z.geb_spec (historyStep s) (Js.len (history c) - 1));
      [lia | reflexivity].
  - unfold handleRedo. cbn [lines historyStep history setLines setHistoryStep].
    rewrite Hguard. cbn [lines historyStep history setLines setHistoryStep].
    rewrite Hnew. repeat split.
Qed.

(** X9: undo right after a gesture takes exactly the stroke of that gesture
    away: the strokes on display and the cursor are those from before the
    gesture, and redo is enabled; a redo then shows the stroke again. *)
Theorem undo_removes_last_gesture
        (s : App) (p0 : Vector2d) (ps : list Vector2d)
        (Hinv : history_inv s) (Hshown : synced s) :
  (exists s',
      run s (gesture p0 ps ++ [Undo]) = Done s'
      /\ lines s' = lines s
      /\ historyStep s' = historyStep s
      /\ canRedo s' = true)
  /\ (exists s',
         run s (gesture p0 ps ++ [Undo; Redo]) = Done s'
         /\ lines s' = lines s ++ [drawn s p0 ps]
         /\ historyStep s' = historyStep s + 1).
Proof.
  set (s1 := setLines (setIsDrawing s true) (lines s ++ [drawn s p0 ps])).
  assert (Hc : committed s (lines s ++ [drawn s p0 ps]) (handleMouseUp s1))
    by exact (handleMouseUp_committed s1 Hinv).
  destruct (undo_after_commit s _ _ Hinv Hshown Hc)
    as ((Hl & Hstep & _ & Hredo) & (Hl' & Hstep' & _)).
  split.
  - exists (handleUndo (handleMouseUp s1)).
    rewrite run_app, run_gesture. simpl. repeat split; assumption.
  - exists (handleRedo (handleUndo (handleMouseUp s1))).
    rewrite run_app, run_gesture. simpl. repeat split; assumption.
Qed.

Lemma undo_removes_last_gesture_witness :
  exists s',
    run second_undone
        (gesture (Vector2d.mk 7 7) [Vector2d.mk 8 8] ++ [Undo]) = Done s'
    /\ lines s' = [strokeA]
    /\ historyStep s' = 1
    /\ canRedo s' = true.
Proof.
  assert (H : history_inv second_undone)
    by (unfold history_inv, Js.len; simpl; lia).
  destruct (undo_removes_last_gesture
              second_undone (Vector2d.mk 7 7) [Vector2d.mk 8 8] H eq_refl)
    as ((s' & Hrun & Hl & Hc & Hr) & _).
  exists s'. repeat split; assumption.
Defined.

(** X10: a clear can be undone: undo right after [handleClearCanvas] shows
    the strokes that were cleared, with the cursor where it was, and a redo
    then clears again. *)
Theorem clear_is_undoable (s : App)
        (Hinv : history_inv s) (Hshown : synced s) :
  lines (handleUndo (handleClearCanvas s)) = lines s
  /\ historyStep (handleUndo (handleClearCanvas s)) = historyStep s
  /\ canRedo (handleUndo (handleClearCanvas s)) = true
  /\ lines (handleRedo (handleUndo (handleClearCanvas s))) = []
  /\ historyStep (handleRedo (handleUndo (handleClearCanvas s)))
     = historyStep s + 1.
Proof.
  destruct (undo_after_commit s _ _ Hinv Hshown
                              (handleClearCanvas_committed s Hinv))
    as ((Hl & Hstep & _ & Hredo) & (Hl' & Hstep' & _)).
  repeat split; assumption.
Qed.

Lemma clear_is_undoable_witness :
  lines (handleUndo (handleClearCanvas two_strokes)) = [strokeA; strokeB]
  /\ historyStep (handleUndo (handleClearCanvas two_strokes)) = 2.
Proof.
  assert (H : history_inv two_strokes)
    by (unfold history_inv, Js.len; simpl; lia).
  destruct (clear_is_undoable two_strokes H eq_refl) as (Hl & Hc & _).
  split; [exact Hl | exact Hc].
Defined.

(** ** When a handler raises *)


(** ** Keyboard shortcuts *)

Lemma handleKeyDown_undo (event : KeyboardEvent) :
  (KeyboardEvent.metaKey event || KeyboardEvent.ctrlKey event)%bool = true ->
  toLowerCase (KeyboardEvent.key event) = "z"%string ->
  KeyboardEvent.shiftKey event = false ->
  handleKeyDown event = (true, Some CallUndo).
Proof.
  intros Hmod Hkey Hshift. unfold handleKeyDown.
  rewrite Hmod, Hkey, Hshift. reflexivity.
Qed.

Lemma handleKeyDown_redo (event : KeyboardEvent) :
  (KeyboardEvent.metaKey event || KeyboardEvent.ctrlKey event)%bool = true ->
  (toLowerCase (KeyboardEvent.key event) = "z"%string
   /\ KeyboardEvent.shiftKey event = true)
  \/ toLowerCase (KeyboardEvent.key event) = "y"%string ->
  handleKeyDown event = (true, Some CallRedo).
Proof.
  intros Hmod [[Hkey Hshift] | Hkey]; unfold handleKeyDown;
    rewrite Hmod, Hkey; [rewrite Hshift |]; reflexivity.
Qed.

(** X12: [handleKeyDown] prevents the default action of a key exactly when
    it calls a handler; without Ctrl or Cmd held it does neither; a key
    press changes the state only as the undo or redo shortcut (Ctrl/Cmd
    with z or y, in either case of the letter), and it never touches the
    snapshots. *)
Theorem keys_act_only_as_shortcuts (s : App) (event : KeyboardEvent) :
  (fst (handleKeyDown event) = true <-> snd (handleKeyDown event) <> None)
  /\ (KeyboardEvent.metaKey event = false ->
      KeyboardEvent.ctrlKey event = false ->
      handleKeyDown event = (false, None) /\ keyDown s event = s)
  /\ (keyDown s event <> s ->
      (KeyboardEvent.metaKey event || KeyboardEvent.ctrlKey event)%bool = true
      /\ (toLowerCase (KeyboardEvent.key event) = "z"%string
          \/ toLowerCase (KeyboardEvent.key event) = "y"%string))
  /\ history (keyDown s event) = history s.
Proof.
  unfold keyDown, handleKeyDown.
  destruct (KeyboardEvent.metaKey event), (KeyboardEvent.ctrlKey event);
    cbn [orb];
    try (destruct (String.eqb_spec (toLowerCase (KeyboardEvent.key event))
                                   "s");
         [| destruct (String.eqb_spec
                        (toLowerCase (KeyboardEvent.key event)) "c");
            [| destruct (String.eqb_spec
                           (toLowerCase (KeyboardEvent.key event)) "z");
               [destruct (KeyboardEvent.shiftKey event)
               | destruct (String.eqb_spec
                             (toLowerCase (KeyboardEvent.key event)) "y")]]]);
    cbn [fst snd];
    repeat split; intros;
      try discriminate; try congruence; try tauto;
      try apply history_handleUndo; try apply history_handleRedo;
      auto.
Qed.

Lemma keys_act_only_as_shortcuts_witness :
  keyDown two_strokes (KeyboardEvent.mk false false false "z") = two_strokes
  /\ history (keyDown two_strokes (KeyboardEvent.mk false true true "Z"))
     = history two_strokes.
Proof.
  destruct (keys_act_only_as_shortcuts
              two_strokes (KeyboardEvent.mk false false false "z"))
    as (_ & Hnone & _).
  destruct (keys_act_only_as_shortcuts
              two_strokes (KeyboardEvent.mk false true true "Z"))
    as (_ & _ & _ & Hh).
  split; [apply Hnone; reflexivity | exact Hh].
Defined.

(** X13: the undo shortcut followed by a redo shortcut gives the state back.
    From a state that displays the snapshot under its cursor, with the
    cursor above 0: Ctrl/Cmd+z without Shift, then Ctrl/Cmd+Shift+z or
    Ctrl/Cmd+y, in either case of the letter. *)
Theorem undo_key_then_redo_key (s : App) (u r : KeyboardEvent)
        (Hinv : history_inv s) (Hshown : synced s)
        (Hpos : 0 < historyStep s)
        (Humod : (KeyboardEvent.metaKey u || KeyboardEvent.ctrlKey u)%bool
                 = true)
        (Hukey : toLowerCase (KeyboardEvent.key u) = "z"%string)
        (Hushift : KeyboardEvent.shiftKey u = false)
        (Hrmod : (KeyboardEvent.metaKey r || KeyboardEvent.ctrlKey r)%bool
                 = true)
        (Hrkey : (toLowerCase (KeyboardEvent.key r) = "z"%string
                  /\ KeyboardEvent.shiftKey r = true)
                 \/ toLowerCase (KeyboardEvent.key r) = "y"%string) :
  keyDown (keyDown s u) r = s.
Proof.
  unfold keyDown.
  rewrite (handleKeyDown_undo u Humod Hukey Hushift).
  rewrite (handleKeyDown_redo r Hrmod Hrkey). cbn [snd].
  apply handleRedo_handleUndo; assumption.
Qed.

Lemma undo_key_then_redo_key_witness :
  keyDown (keyDown two_strokes (KeyboardEvent.mk false true false "z"))
          (KeyboardEvent.mk true false true "Z")
  = two_strokes
  /\ keyDown (keyDown two_strokes (KeyboardEvent.mk true false false "Z"))
             (KeyboardEvent.mk false true false "y")
     = two_strokes.
Proof.
  assert (H : history_inv two_strokes)
    by (unfold history_inv, Js.len; simpl; lia).
  assert (Hpos : 0 < historyStep two_strokes) by (simpl; lia).
  split.
  - apply undo_key_then_redo_key; try assumption; try reflexivity.
    left. split; reflexivity.
  - apply undo_key_then_redo_key; try assumption; try reflexivity.
    right. reflexivity.
Defined.

(** ** Rendering *)

(** X14: two strokes are painted alike exactly when they have the same
    points, the same width and the same tool and, for the pen, the same
    color: the color of an eraser stroke is never painted, and a pen stroke
    is never painted like an eraser stroke, whatever its color. *)
Theorem getLineProps_eq_iff (l l' : DrawingLine) :
  getLineProps l = getLineProps l'
  <-> (DrawingLine.points l = DrawingLine.points l'
       /\ DrawingLine.size l = DrawingLine.size l'
       /\ DrawingLine.tool l = DrawingLine.tool l'
       /\ (DrawingLine.tool l = pen ->
           DrawingLine.color l = DrawingLine.color l')).
Proof.
  destruct l as [c pts sz t], l' as [c' pts' sz' t'].
  unfold getLineProps. simpl. split.
  - intros H. injection H as Hp Hs Hw Hg.
    destruct t, t'; try discriminate; repeat split; auto; discriminate.
  - intros (-> & -> & -> & Hc). destruct t'; [rewrite Hc |]; reflexivity.
Qed.

(** X15: with the eraser selected the picked color has no effect on what is
    painted: a gesture drawn after picking any color leaves the same
    [Line]s on the [Layer] as the gesture drawn without picking it; with the
    pen selected the new [Line] is stroked in the picked color. *)
Theorem eraser_gesture_ignores_color
        (s : App) (c : string) (p0 : Vector2d) (ps : list Vector2d) :
  (tool s = eraser ->
   layer (state_of (run (setColor s c) (gesture p0 ps)))
   = layer (state_of (run s (gesture p0 ps))))
  /\ (tool s = pen ->
      layer (state_of (run (setColor s c) (gesture p0 ps)))
      = layer s
          ++ [LineProps.mk (flat (p0 :: ps)) c (penSize s) "source-over"
                           (1 # 2)%Q "round" "round"]).
Proof.
  rewrite !run_gesture. unfold layer. simpl. rewrite !map_app. simpl.
  unfold getLineProps, drawn, currentSize. simpl.
  split; intros ->; reflexivity.
Qed.

Lemma eraser_gesture_ignores_color_witness :
  layer (state_of (run (setColor two_strokes "#ffffff")
                       (gesture (Vector2d.mk 1 1) [])))
  = layer (state_of (run two_strokes (gesture (Vector2d.mk 1 1) []))).
Proof.
  destruct (eraser_gesture_ignores_color
              two_strokes "#ffffff" (Vector2d.mk 1 1) []) as (H & _).
  apply H. reflexivity.
Defined.

(** ** Events out of order *)

Lemma run_pointer_downs (qs : list Vector2d) :
  forall s : App,
  exists s',
    run s (map (fun q => MouseDown (Some q)) qs) = Done s'
    /\ lines s' = lines s ++ map (opened s) qs
    /\ history s' = history s
    /\ historyStep s' = historyStep s
    /\ (tool s' = tool s /\ color s' = color s
        /\ penSize s' = penSize s /\ eraserSize s' = eraserSize s).
Proof.
  induction qs as [| q qs IH]; intros s.
  - exists s. simpl. rewrite app_nil_r. repeat split.
  - destruct (IH (setLines (setIsDrawing s true) (lines s ++ [opened s q])))
      as (s' & Hrun & Hl & Hh & Hc & Ht & Hcol & Hp & He).
    exists s'. simpl in *. split; [exact Hrun |].
    rewrite Hl, <- app_assoc. simpl.
    repeat split; assumption.
Qed.

(** X16: a pointer-down is never rejected.  Pointer-downs that follow each
    other with no pointer-up between them (a second finger, say) each add a
    stroke in the selected style, and the one pointer-up that follows
    commits all of them as a single snapshot, one step above the cursor. *)
Theorem pointer_downs_all_open_strokes (s : App) (qs : list Vector2d) :
  exists s',
    run s (map (fun q => MouseDown (Some q)) qs ++ [MouseUp]) = Done s'
    /\ lines s' = lines s ++ map (opened s) qs
    /\ history s'
       = Js.slice0 (history s) (historyStep s + 1)
           ++ [lines s ++ map (opened s) qs]
    /\ historyStep s' = historyStep s + 1.
Proof.
  destruct (run_pointer_downs qs s) as (s1 & Hrun & Hl & Hh & Hc & _).
  exists (handleMouseUp s1). rewrite run_app, Hrun. simpl.
  rewrite Hl, Hh, Hc. repeat split.
Qed.

(** X17: an undo in the middle of a gesture does not end the gesture: the
    next move appends its position to the last stroke of the snapshot the
    undo put on display, a stroke committed earlier.  The snapshots
    themselves stay as they were. *)
Theorem move_after_undo_extends_old_stroke
        (s : App) (p : Vector2d) (earlier : list DrawingLine)
        (l : DrawingLine)
        (Hd : isDrawing s = true) (Hpos : 0 < historyStep s)
        (Hsnap : Js.get (history s) (historyStep s - 1)
                 = Some (earlier ++ [l])) :
  exists s',
    run s [Undo; MouseMove (Some p)] = Done s'
    /\ lines s' = earlier ++ [extended l p]
    /\ history s' = history s
    /\ Js.get (history s') (historyStep s') = Some (earlier ++ [l])
    /\ isDrawing s' = true.
Proof.
  assert (Hu : handleUndo s
               = setLines (setHistoryStep s (historyStep s - 1))
                          (earlier ++ [l])).
  { unfold handleUndo. rewrite Hsnap.
    destruct (Z.gtb_spec (historyStep s) 0); [reflexivity | lia]. }
  eexists. cbn [run dispatch]. rewrite Hu. unfold handleMouseMove.
  cbn [isDrawing lines setLines setHistoryStep]. rewrite Hd.
  cbn [negb]. rewrite moveUpdater_last.
  split; [reflexivity |]. simpl. repeat split; assumption.
Qed.

Lemma move_after_undo_extends_old_stroke_witness :
  exists s',
    run (setIsDrawing two_strokes true)
        [Undo; MouseMove (Some (Vector2d.mk 40 40))] = Done s'
    /\ lines s'
       = [DrawingLine.mk "#df4b26" [10; 10; 20; 20; 30; 10; 40; 40] 6 pen]
    /\ history s' = history two_strokes.
Proof.
  destruct (move_after_undo_extends_old_stroke
              (setIsDrawing two_strokes true) (Vector2d.mk 40 40)
              [] strokeA eq_refl)
    as (s' & Hrun & Hl & Hh & _); [simpl; lia | reflexivity |].
  exists s'. repeat split; assumption.
Defined.

(** X18: an undo that moves the cursor enables redo, and a redo that moves
    the cursor enables undo. *)
Theorem undo_enables_redo (s : App) (Hinv : history_inv s) :
  (canUndo s = true -> canRedo (handleUndo s) = true)
  /\ (canRedo s = true -> canUndo (handleRedo s) = true).
Proof.
  destruct Hinv as [Hlo Hhi]. unfold canUndo, canRedo. split.
  - intros H. rewrite history_handleUndo. unfold handleUndo.
    destruct (Z.leb_spec (historyStep s) 0); [discriminate |].
    destruct (Z.gtb_spec (historyStep s) 0); [simpl | lia].
    destruct (Z.geb_spec (historyStep s - 1) (Js.len (history s) - 1));
      [lia | reflexivity].
  - intros H. unfold handleRedo.
    destruct (Z.geb_spec (historyStep s) (Js.len (history s) - 1));
      [discriminate |].
    destruct (Z.ltb_spec (historyStep s) (Js.len (history s) - 1));
      [simpl | lia].
    destruct (Z.leb_spec (historyStep s + 1) 0); [lia | reflexivity].
Qed.

Lemma undo_enables_redo_witness :
  canRedo (handleUndo two_strokes) = true
  /\ canUndo (handleRedo second_undone) = true.
Proof.
  assert (H2 : history_inv two_strokes)
    by (unfold history_inv, Js.len; simpl; lia).
  assert (H1 : history_inv second_undone)
    by (unfold history_inv, Js.len; simpl; lia).
  split.
  - apply (proj1 (undo_enables_redo two_strokes H2)). reflexivity.
  - apply (proj2 (undo_enables_redo second_undone H1)). reflexivity.
Defined.

(** ** Undo during a gesture *)

Lemma reachable_mid_gesture : reachable mid_gesture.
Proof.
  exact (reach_dispatch two_strokes (MouseDown (Some (Vector2d.mk 7 7)))
                        reachable_two_strokes).
Qed.

(** C5, as stated for every state with the cursor above 0, fails while a
    gesture is in progress: after a pointer-down over the two strokes the
    display holds the third, uncommitted stroke; undo then redo puts the
    committed snapshot back on display and that stroke is gone. *)
Lemma undo_redo_roundtrip_counterexample :
  reachable mid_gesture
  /\ history_inv mid_gesture
  /\ 0 < historyStep mid_gesture
  /\ lines mid_gesture = [strokeA; strokeB; strokeC]
  /\ lines (handleRedo (handleUndo mid_gesture)) = [strokeA; strokeB]
  /\ ~ (forall s : App,
          reachable s -> history_inv s -> 0 < historyStep s ->
          lines (handleRedo (handleUndo s)) = lines s
          /\ historyStep (handleRedo (handleUndo s)) = historyStep s).
Proof.
  assert (Hinv : history_inv mid_gesture)
    by (unfold history_inv, Js.len; simpl; lia).
  assert (Hpos : 0 < historyStep mid_gesture) by (simpl; lia).
  split; [exact reachable_mid_gesture |].
  split; [exact Hinv |]. split; [exact Hpos |].
  split; [reflexivity |]. split; [reflexivity |].
  intros H.
  destruct (H mid_gesture reachable_mid_gesture Hinv Hpos) as [Hl _].
  discriminate Hl.
Qed.

(** C8: a move during a gesture does not always go to the stroke created
    last.  From the initial state: stroke A is drawn with the pen, stroke B
    with the eraser, the pointer goes down at (7,7), which creates stroke C,
    and undo is pressed while it is down.  The move to (40,40) that follows
    appends its position to stroke A, committed two gestures earlier; the
    stroke C of the gesture in progress gets nothing. *)
Theorem move_after_undo_alters_committed_stroke :
  run initial
      (gesture (Vector2d.mk 10 10) [Vector2d.mk 20 20; Vector2d.mk 30 10]
       ++ [ToolClick eraser; PickColor "#000000"]
       ++ gesture (Vector2d.mk 5 5) [Vector2d.mk 6 7]
       ++ [MouseDown (Some (Vector2d.mk 7 7))])
  = Done mid_gesture
  /\ isDrawing mid_gesture = true
  /\ lines mid_gesture = [strokeA; strokeB; strokeC]
  /\ Js.get (history mid_gesture) 1 = Some [strokeA]
  /\ run mid_gesture [Undo; MouseMove (Some (Vector2d.mk 40 40))]
     = Done (mkApp eraser
                   [DrawingLine.mk "#df4b26"
                                   [10; 10; 20; 20; 30; 10; 40; 40] 6 pen]
                   [[]; [strokeA]; [strokeA; strokeB]] 1 "#000000" 6 12
                   true).
Proof. repeat split. Qed.
